(** * webpack-manifest-plugin: the manifest plugin of [src/index.js]

    A shallow embedding of the plugin (class [ManifestPlugin]: its
    constructor defaults, [getFileType], and the closures [moduleAsset],
    [emit] and [beforeRun] that [apply] registers on the build engine),
    followed by the properties of its file-list pipeline, its manifest
    builder and its emit counter.

    Conventions of the embedding.
    - A JavaScript string is a [string]: the UTF-8 bytes of its text. The
      operations of the plugin only look for ASCII characters ([?], [.],
      [\], the letters of [hot-update], [gz] and [map]) and for the four
      line terminators, so they act on the bytes as they act on the text.
    - A plain object used as a dictionary ([moduleAssets], the manifest
      and its seed, [compilation.assets]) is the finite map of its own
      string keys, read and written as JavaScript reads and writes an
      object whose prototype is [Object.prototype]: a read of a key the
      object does not own finds the member of the prototype of that name
      ([Js.get]), and an assignment to ['__proto__'] adds no key
      ([Js.set]). The [Map] [emitCountMap] is a finite map.
    - The functions of the user ([filter], [map], [sort], [generate],
      [serialize]) and the pattern [transformExtensions] are pure and
      total: they do not throw and keep no state between calls.
    - [null] and [undefined] are [None].
    - The numbers stored in [emitCountMap] are integers or [NaN]; the
      integers are far inside the range in which JavaScript's [+ 1] and
      [- 1] are exact. *)

From Stdlib Require Import ZArith Ascii String List Lia.
From stdpp Require Import gmap strings list fin_maps.


Local Open Scope Z_scope.

(** ** JavaScript strings and arrays *)

Module Js.

(** [s.split(sep)] with a one-character separator. The result is never
    empty: [''.split('.')] is [['']]. *)
Fixpoint split (sep : ascii) (s : string) : list string :=
  match s with
  | EmptyString => [EmptyString]
  | String c s' =>
      if Ascii.eqb c sep then EmptyString :: split sep s'
      else match split sep s' with
           | seg :: segs => String c seg :: segs
           | [] => [String c EmptyString]
           end
  end.

(** [array.pop()]: the last element and the array without it; on an empty
    array the result is [undefined] and the array stays empty. *)
Definition pop {A : Type} (l : list A) : option A * list A :=
  (last l, removelast l).

(** String concatenation converts [undefined] to the text ["undefined"]. *)
Definition to_string (v : option string) : string :=
  match v with
  | Some s => s
  | None => "undefined"
  end.

Definition LF : ascii := ascii_of_nat 10.
Definition CR : ascii := ascii_of_nat 13.

(** Does [s] start with a line terminator: LF, CR, or U+2028 / U+2029
    (the bytes E2 80 A8 and E2 80 A9)? *)
Definition at_line_terminator (s : string) : bool :=
  match s with
  | String c rest =>
      Ascii.eqb c LF || Ascii.eqb c CR ||
      (Ascii.eqb c (ascii_of_nat 226) &&
       match rest with
       | String c1 (String c2 _) =>
           Ascii.eqb c1 (ascii_of_nat 128) &&
           (Ascii.eqb c2 (ascii_of_nat 168) || Ascii.eqb c2 (ascii_of_nat 169))
       | _ => false
       end)
  | EmptyString => false
  end.

(** What is left of [s] after the greedy pattern [.*] matched at its start:
    the dot matches every character but a line terminator. *)
Fixpoint after_dot_star (s : string) : string :=
  match s with
  | EmptyString => EmptyString
  | String _ s' => if at_line_terminator s then s else after_dot_star s'
  end.

(** [s.replace(/\?.*/, '')]: the leftmost match starts at the first [?];
    the pattern is not global, so one match is replaced. *)
Fixpoint replace_query (s : string) : string :=
  match s with
  | EmptyString => EmptyString
  | String c s' =>
      if Ascii.eqb c "?" then after_dot_star s' else String c (replace_query s')
  end.

Fixpoint map_chars (f : ascii -> ascii) (s : string) : string :=
  match s with
  | EmptyString => EmptyString
  | String c s' => String (f c) (map_chars f s')
  end.

(** [s.replace(/\\/g, '/')]. *)
Definition replace_backslashes (s : string) : string :=
  map_chars (fun c => if Ascii.eqb c "\" then "/"%char else c) s.

(** [sub] stands at the start of [s]. *)
Fixpoint starts_with (sub s : string) : bool :=
  match sub, s with
  | EmptyString, _ => true
  | String a sub', String b s' => Ascii.eqb a b && starts_with sub' s'
  | String _ _, EmptyString => false
  end.

(** [s.indexOf(sub) >= 0]. *)
Fixpoint includes (sub s : string) : bool :=
  starts_with sub s ||
  match s with
  | EmptyString => false
  | String _ s' => includes sub s'
  end.

(** Case folding of the [i] flag, on the ASCII letters of a pattern. *)
Definition lower (c : ascii) : ascii :=
  let n := nat_of_ascii c in
  if (Nat.leb 65 n && Nat.leb n 90)%bool then ascii_of_nat (n + 32) else c.

(** [/^(gz|map)$/i.test(s)]. *)
Definition test_gz_map (s : string) : bool :=
  let t := map_chars lower s in
  String.eqb t "gz" || String.eqb t "map".

(** A number as [emitCountMap] holds it. *)
Inductive num : Type :=
| Num (z : Z)
| NaN.

(** [ToNumber]: [undefined] becomes [NaN]. *)
Definition to_number (v : option num) : num :=
  match v with
  | Some n => n
  | None => NaN
  end.

Definition sub (a : num) (k : Z) : num :=
  match a with
  | Num z => Num (z - k)
  | NaN => NaN
  end.

Definition add (a : num) (k : Z) : num :=
  match a with
  | Num z => Num (z + k)
  | NaN => NaN
  end.

(** [v || 0]: [undefined], [NaN] and [0] are falsy. *)
Definition or_zero (v : option num) : num :=
  match v with
  | Some (Num z) => Num z
  | Some NaN | None => Num 0
  end.

(** [a === 0]. *)
Definition is_zero (a : num) : bool :=
  match a with
  | Num z => Z.eqb z 0
  | NaN => false
  end.

(** What a read of a property of a dictionary of strings can give: a
    string the object owns, or the member of [Object.prototype] of that
    name (a function; for ['__proto__'] the prototype object itself). *)
Inductive value : Type :=
| Str (s : string)
| Inherited (key : string).

(** The names of the members of [Object.prototype]. *)
Definition prototype_keys : list string :=
  [ "constructor"; "hasOwnProperty"; "isPrototypeOf"; "propertyIsEnumerable";
    "toLocaleString"; "toString"; "valueOf"; "__proto__";
    "__defineGetter__"; "__defineSetter__"; "__lookupGetter__"; "__lookupSetter__" ].

Definition inherited (k : string) : bool :=
  existsb (String.eqb k) prototype_keys.

(** [o[k]] on a plain object: its own property, else the member of the
    prototype, else [undefined]. *)
Definition get (o : gmap string string) (k : string) : option value :=
  match o !! k with
  | Some v => Some (Str v)
  | None => if inherited k then Some (Inherited k) else None
  end.

(** [o[k] = v] on a plain object, for the keys it owns after it. An
    assignment to ['__proto__'] goes to the setter of the prototype, which
    adds no key (it ignores a string, and makes an object the new
    prototype), unless the object owns a property of that name. *)
Definition set (o : gmap string string) (k v : string) : gmap string string :=
  match o !! k with
  | Some _ => <[k := v]> o
  | None => if String.eqb k "__proto__" then o else <[k := v]> o
  end.

End Js.

(** Truthiness of a string: only the empty string is falsy. *)
Definition truthy (s : string) : bool :=
  match s with
  | EmptyString => false
  | String _ _ => true
  end.

(** Functions and objects are truthy. *)
Definition truthy_value (v : Js.value) : bool :=
  match v with
  | Js.Str s => truthy s
  | Js.Inherited _ => true
  end.

(** ** The runtime the plugin calls into

    Node's [path] module, [JSON.stringify(manifest, null, 2)] and
    [Array.prototype.sort] are not part of the plugin; the development is
    parametric in them. The [path] functions are given on strings: on an
    argument that is not a string they throw a [TypeError]. Of [sort] only
    what holds of every comparator is assumed: the sorted array holds the
    elements of the array (the order is the engine's when the comparator is
    not consistent). *)

Class Runtime : Type := {
  path_join : string -> string -> string;
  path_resolve : string -> string -> string;
  path_relative : string -> string -> string;
  path_dirname : string -> string;
  path_basename : string -> string;
  JSON_stringify : gmap string string -> string;
  Array_sort : forall A : Type, (A -> A -> Z) -> list A -> list A;
  Array_sort_permutation :
    forall (A : Type) (cmp : A -> A -> Z) (l : list A), Array_sort A cmp l ≡ₚ l
}.

(** ** Data of the build engine *)

Module Chunk.
(** A chunk of the compilation. [name] may be absent; the three ways the
    engine versions expose the initial flag are kept apart: the methods
    [isOnlyInitial()] and [isInitial()] (absent on older engines) and the
    property [initial]. *)
Record t : Type := {
  name : option string;
  files : list string;
  isOnlyInitial : option bool;
  isInitial : option bool;
  initial : bool
}.
End Chunk.

Module Asset.
(** An element of [stats.assets]: its name and the ids of its chunks. *)
Record t : Type := {
  name : string;
  chunks : list Z
}.
End Asset.

Module FileEntry.
(** The objects [emit] builds; [chunk] is present on chunk files only. [N]
    is what the name of an entry can be: any value a read of [moduleAssets]
    gives while the list is built, a string once the first filter has
    passed the entry through [path.join]. *)
Record entry (N : Type) : Type := {
  path : string;
  chunk : option Chunk.t;
  name : N;
  isInitial : bool;
  isChunk : bool;
  isAsset : bool;
  isModuleAsset : bool
}.
Arguments path {N} _.
Arguments chunk {N} _.
Arguments name {N} _.
Arguments isInitial {N} _.
Arguments isChunk {N} _.
Arguments isAsset {N} _.
Arguments isModuleAsset {N} _.

(** An entry whose name is a string. *)
Abbreviation t := (entry string).

(** [file.name = v] and [file.path = v]. *)
Definition set_name {N M : Type} (file : entry N) (v : M) : entry M :=
  {| path := path file; chunk := chunk file; name := v;
     isInitial := isInitial file; isChunk := isChunk file;
     isAsset := isAsset file; isModuleAsset := isModuleAsset file |}.

Definition set_path {N : Type} (file : entry N) (v : string) : entry N :=
  {| path := v; chunk := chunk file; name := name file;
     isInitial := isInitial file; isChunk := isChunk file;
     isAsset := isAsset file; isModuleAsset := isModuleAsset file |}.

(** An entry of string name among the entries of any name, and back. *)
Definition raw (file : t) : entry Js.value :=
  set_name file (Js.Str (name file)).

Definition named (file : entry Js.value) : option t :=
  match name file with
  | Js.Str s => Some (set_name file s)
  | Js.Inherited _ => None
  end.
End FileEntry.

Module Compilation.
(** What [emit] reads from the compilation, and its [assets] collection
    (asset name to source text), which [emit] writes. [statsAssets] is
    [getStats().toJson().assets]; [publicPath] is
    [options.output.publicPath]. *)
Record t : Type := {
  chunks : list Chunk.t;
  statsAssets : list Asset.t;
  publicPath : option string;
  assets : gmap string string
}.

(** [compilation.assets[k] = { source, size }], on the keys [assets] owns
    and the text of their sources. *)
Definition set_asset (c : t) (k v : string) : t :=
  {| chunks := chunks c; statsAssets := statsAssets c;
     publicPath := publicPath c; assets := Js.set (assets c) k v |}.
End Compilation.

(** ** Options *)

Module Options.
(** [this.options]. [transformExtensions] is the [test] method of the
    configured pattern; [filter], [map], [generate], [sort] and [serialize]
    are the user's functions. *)
Record t : Type := {
  publicPath : option string;
  basePath : string;
  fileName : string;
  transformExtensions : string -> bool;
  writeToFileEmit : bool;
  seed : option (gmap string string);
  filter : option (FileEntry.t -> bool);
  map : option (FileEntry.t -> FileEntry.t);
  generate : option (gmap string string -> list FileEntry.t -> gmap string string);
  sort : option (FileEntry.t -> FileEntry.t -> Z);
  serialize : gmap string string -> string
}.

(** The seed object after the default fold wrote into it. *)
Definition set_seed (o : t) (v : option (gmap string string)) : t :=
  {| publicPath := publicPath o; basePath := basePath o;
     fileName := fileName o; transformExtensions := transformExtensions o;
     writeToFileEmit := writeToFileEmit o; seed := v; filter := filter o;
     map := map o; generate := generate o; sort := sort o;
     serialize := serialize o |}.
End Options.

(** The defaults of the constructor. *)
Definition defaults `{Runtime} : Options.t :=
  {| Options.publicPath := None;
     Options.basePath := "";
     Options.fileName := "manifest.json";
     Options.transformExtensions := Js.test_gz_map;
     Options.writeToFileEmit := false;
     Options.seed := None;
     Options.filter := None;
     Options.map := None;
     Options.generate := None;
     Options.sort := None;
     Options.serialize := JSON_stringify |}.

(** ** getFileType *)

Definition getFileType (options : Options.t) (filepath : string) : string :=
  let filepath := Js.replace_query filepath in
  let split := Js.split "." filepath in
  let '(extname, split) := Js.pop split in
  let extname := Js.to_string extname in
  if Options.transformExtensions options extname then
    let '(prev, _) := Js.pop split in
    Js.to_string prev +:+ "." +:+ extname
  else extname.

(** ** The plugin instance, the process and the sinks *)

Module Plugin.
(** What [apply] closes over: the options, the three paths computed from
    the compiler's output folder, and the [moduleAssets] object that the
    [moduleAsset] hook fills. *)
Record t : Type := {
  options : Options.t;
  outputFolder : string;
  outputFile : string;
  outputName : string;
  moduleAssets : gmap string string
}.
End Plugin.

Module Fs.
(** The disk as [fs.outputFileSync] sees it: the files written so far, and
    the paths at which a write fails (no permission, no space). *)
Record t : Type := {
  files : gmap string string;
  failing : gset string
}.

(** [fs.outputFileSync(file, data)]: [None] when it throws. *)
Definition outputFileSync (d : t) (file data : string) : option t :=
  if decide (file ∈ failing d) then None
  else Some {| files := <[file := data]> (files d); failing := failing d |}.
End Fs.

(** What an [emit] does to the outside, in order. *)
Inductive event : Type :=
| AssetSet (name output : string)
| FileWritten (file output : string)
| AfterEmit (manifest : gmap string string).

Module World.
(** The state of the process: the module-level [emitCountMap], the disk and
    the trace of effects. *)
Record t : Type := {
  emitCountMap : gmap string Js.num;
  disk : Fs.t;
  trace : list event
}.
End World.

(** A call returns normally or throws; the state reached is kept in both
    cases. *)
Inductive completion (A : Type) : Type :=
| Normal (a : A)
| Throw (a : A).
Arguments Normal {A} a.
Arguments Throw {A} a.

Definition state_of {A : Type} (r : completion A) : A :=
  match r with
  | Normal a => a
  | Throw a => a
  end.

Definition threw {A : Type} (r : completion A) : bool :=
  match r with
  | Normal _ => false
  | Throw _ => true
  end.

(** ** apply: the closures *)

Definition apply `{Runtime} (options : Options.t) (outputFolder : string) : Plugin.t :=
  let outputFile := path_resolve outputFolder (Options.fileName options) in
  {| Plugin.options := options;
     Plugin.outputFolder := outputFolder;
     Plugin.outputFile := outputFile;
     Plugin.outputName := path_relative outputFolder outputFile;
     Plugin.moduleAssets := ∅ |}.

(** [moduleAsset(module, file)], with [module.userRequest]. *)
Definition moduleAsset `{Runtime} (p : Plugin.t) (userRequest file : string) : Plugin.t :=
  {| Plugin.options := Plugin.options p;
     Plugin.outputFolder := Plugin.outputFolder p;
     Plugin.outputFile := Plugin.outputFile p;
     Plugin.outputName := Plugin.outputName p;
     Plugin.moduleAssets :=
       Js.set (Plugin.moduleAssets p) file
         (path_join (path_dirname file) (path_basename userRequest)) |}.

(** [beforeRun(compiler, callback)]. *)
Definition beforeRun (p : Plugin.t) (w : World.t) : World.t :=
  let emitCount := Js.or_zero (World.emitCountMap w !! Plugin.outputFile p) in
  {| World.emitCountMap :=
       <[Plugin.outputFile p := Js.add emitCount 1]> (World.emitCountMap w);
     World.disk := World.disk w;
     World.trace := World.trace w |}.

(** *** The classifier (the two [reduce] calls of [emit]) *)

Definition chunk_isInitial (chunk : Chunk.t) : bool :=
  match Chunk.isOnlyInitial chunk with
  | Some b => b
  | None =>
      match Chunk.isInitial chunk with
      | Some b => b
      | None => Chunk.initial chunk
      end
  end.

(** The entry of one file of a chunk. A chunk whose name is absent or empty
    maps its files directly. *)
Definition chunk_file_entry (options : Options.t) (chunk : Chunk.t) (path : string)
  : FileEntry.t :=
  let name :=
    match Chunk.name chunk with
    | Some n => if truthy n then Some n else None
    | None => None
    end in
  let name :=
    match name with
    | Some n => n +:+ "." +:+ getFileType options path
    | None => path
    end in
  {| FileEntry.path := path;
     FileEntry.chunk := Some chunk;
     FileEntry.name := name;
     FileEntry.isInitial := chunk_isInitial chunk;
     FileEntry.isChunk := true;
     FileEntry.isAsset := false;
     FileEntry.isModuleAsset := false |}.

Definition chunk_entries (options : Options.t) (chunks : list Chunk.t)
  : list (FileEntry.entry Js.value) :=
  fold_left
    (fun files chunk =>
       fold_left
         (fun files path =>
            files ++ [FileEntry.raw (chunk_file_entry options chunk path)])
         (Chunk.files chunk) files)
    chunks [].

(** The entry of an asset that [moduleAssets[asset.name]] gives the truthy
    value [name]: a recorded name, or a member of [Object.prototype] when
    the asset is called as one. *)
Definition module_asset_of (asset : Asset.t) (name : Js.value)
  : FileEntry.entry Js.value :=
  {| FileEntry.path := Asset.name asset;
     FileEntry.chunk := None;
     FileEntry.name := name;
     FileEntry.isInitial := false;
     FileEntry.isChunk := false;
     FileEntry.isAsset := true;
     FileEntry.isModuleAsset := true |}.

(** One step of the reduction over [stats.assets]. *)
Definition asset_step (moduleAssets : gmap string string)
  (files : list (FileEntry.entry Js.value)) (asset : Asset.t)
  : list (FileEntry.entry Js.value) :=
  let plain :=
    let isEntryAsset := (0 <? Z.of_nat (length (Asset.chunks asset))) in
    if isEntryAsset then files
    else
      files ++ [ {| FileEntry.path := Asset.name asset;
                    FileEntry.chunk := None;
                    FileEntry.name := Js.Str (Asset.name asset);
                    FileEntry.isInitial := false;
                    FileEntry.isChunk := false;
                    FileEntry.isAsset := true;
                    FileEntry.isModuleAsset := false |} ] in
  match Js.get moduleAssets (Asset.name asset) with
  | Some name =>
      if truthy_value name then files ++ [module_asset_of asset name] else plain
  | None => plain
  end.

Definition classify (options : Options.t) (moduleAssets : gmap string string)
  (c : Compilation.t) : list (FileEntry.entry Js.value) :=
  fold_left (asset_step moduleAssets) (Compilation.statsAssets c)
    (chunk_entries options (Compilation.chunks c)).

(** *** The stages applied to the file list *)

(** The entries of a list whose names are all strings; [None] when one is
    not. *)
Fixpoint named_entries (files : list (FileEntry.entry Js.value))
  : option (list FileEntry.t) :=
  match files with
  | [] => Some []
  | file :: files' =>
      match FileEntry.named file, named_entries files' with
      | Some f, Some fs => Some (f :: fs)
      | _, _ => None
      end
  end.

(** The first [filter], on entries of string names: hot updates and
    manifests of tracked instances. *)
Definition noise_filter `{Runtime} (outputFolder : string)
  (counts : gmap string Js.num) (files : list FileEntry.t) : list FileEntry.t :=
  List.filter
    (fun file =>
       let isUpdateChunk := Js.includes "hot-update" (FileEntry.path file) in
       let isManifest :=
         match counts !! path_join outputFolder (FileEntry.name file) with
         | Some _ => true
         | None => false
         end in
       negb isUpdateChunk && negb isManifest)
    files.

(** [if (options.basePath) files = files.map(...)]. *)
Definition prefix_basePath (basePath : string) (files : list FileEntry.t)
  : list FileEntry.t :=
  if truthy basePath then
    List.map (fun file => FileEntry.set_name file (basePath +:+ FileEntry.name file)) files
  else files.

(** The [publicPath] of [emit]: the option unless it is [null] or
    [undefined], else the engine's. *)
Definition effective_publicPath (options : Options.t) (c : Compilation.t)
  : option string :=
  match Options.publicPath options with
  | Some pp => Some pp
  | None => Compilation.publicPath c
  end.

(** [if (publicPath) files = files.map(...)]. *)
Definition prefix_publicPath (publicPath : option string) (files : list FileEntry.t)
  : list FileEntry.t :=
  match publicPath with
  | Some pp =>
      if truthy pp then
        List.map (fun file => FileEntry.set_path file (pp +:+ FileEntry.path file)) files
      else files
  | None => files
  end.

(** The [map] that replaces the backslashes of [name] and [path]. *)
Definition normalize_entry (file : FileEntry.t) : FileEntry.t :=
  let file := FileEntry.set_name file (Js.replace_backslashes (FileEntry.name file)) in
  FileEntry.set_path file (Js.replace_backslashes (FileEntry.path file)).

Definition normalize_separators (files : list FileEntry.t) : list FileEntry.t :=
  List.map normalize_entry files.

(** The first [filter] as [emit] runs it. Its callback hands the name of
    every entry to [path.join], which throws on a name that is not a
    string: the filter ends (with the entries that are not noise) only on a
    list of string names, and throws otherwise ([None]). *)
Definition first_filter `{Runtime} (outputFolder : string)
  (counts : gmap string Js.num) (files : list (FileEntry.entry Js.value))
  : option (list FileEntry.t) :=
  match named_entries files with
  | Some named => Some (noise_filter outputFolder counts named)
  | None => None
  end.

Definition user_stages `{Runtime} (options : Options.t) (files : list FileEntry.t)
  : list FileEntry.t :=
  let files :=
    match Options.filter options with
    | Some f => List.filter f files
    | None => files
    end in
  let files :=
    match Options.map options with
    | Some f => List.map f files
    | None => files
    end in
  match Options.sort options with
  | Some cmp => Array_sort FileEntry.t cmp files
  | None => files
  end.

(** The stages after the first filter. *)
Definition later_stages `{Runtime} (options : Options.t) (c : Compilation.t)
  (files : list FileEntry.t) : list FileEntry.t :=
  let files := prefix_basePath (Options.basePath options) files in
  let files := prefix_publicPath (effective_publicPath options c) files in
  let files := normalize_separators files in
  user_stages options files.

(** The value of [files] when [emit] reaches the manifest, given the
    [emitCountMap] of that moment; [None] when the first filter throws. *)
Definition emit_files `{Runtime} (p : Plugin.t) (c : Compilation.t)
  (counts : gmap string Js.num) : option (list FileEntry.t) :=
  let options := Plugin.options p in
  let files := classify options (Plugin.moduleAssets p) c in
  match first_filter (Plugin.outputFolder p) counts files with
  | Some files => Some (later_stages options c files)
  | None => None
  end.

(** *** The manifest *)

(** The default [reduce]: [manifest[file.name] = file.path]. *)
Definition fold_manifest (seed : gmap string string) (files : list FileEntry.t)
  : gmap string string :=
  fold_left
    (fun manifest file => Js.set manifest (FileEntry.name file) (FileEntry.path file))
    files seed.

Definition build_manifest (options : Options.t) (files : list FileEntry.t)
  : gmap string string :=
  let seed := default ∅ (Options.seed options) in
  match Options.generate options with
  | Some generate => generate seed files
  | None => fold_manifest seed files
  end.

(** The default fold writes into the seed object itself: a seed given in
    the options is, after the call, the manifest. *)
Definition seed_after (options : Options.t) (manifest : gmap string string)
  : Options.t :=
  match Options.generate options, Options.seed options with
  | None, Some _ => Options.set_seed options (Some manifest)
  | _, _ => options
  end.

(** *** emit *)

Module EmitState.
(** What a call of [emit] can change: the instance (its seed object), the
    compilation (its assets) and the process. *)
Record t : Type := {
  plugin : Plugin.t;
  compilation : Compilation.t;
  world : World.t
}.
End EmitState.

Definition set_options (p : Plugin.t) (o : Options.t) : Plugin.t :=
  {| Plugin.options := o;
     Plugin.outputFolder := Plugin.outputFolder p;
     Plugin.outputFile := Plugin.outputFile p;
     Plugin.outputName := Plugin.outputName p;
     Plugin.moduleAssets := Plugin.moduleAssets p |}.

(** The counter [emit] stores: [emitCountMap.get(outputFile) - 1]. *)
Definition emit_count (p : Plugin.t) (w : World.t) : Js.num :=
  Js.sub (Js.to_number (World.emitCountMap w !! Plugin.outputFile p)) 1.

Definition emit_counts (p : Plugin.t) (w : World.t) : gmap string Js.num :=
  <[Plugin.outputFile p := emit_count p w]> (World.emitCountMap w).

(** The manifest a call of [emit] computes; [None] when the first filter
    throws. *)
Definition emit_manifest `{Runtime} (p : Plugin.t) (c : Compilation.t) (w : World.t)
  : option (gmap string string) :=
  match emit_files p c (emit_counts p w) with
  | Some files => Some (build_manifest (Plugin.options p) files)
  | None => None
  end.

(** [emit] from the manifest on, for the file list [files]. The after-emit
    notification is dispatched through [compiler.hooks] or through
    [applyPluginsAsync], with the same manifest; it is one [AfterEmit] event
    here. *)
Definition emit_rest (p : Plugin.t) (c : Compilation.t) (w : World.t)
  (files : list FileEntry.t) : completion EmitState.t :=
  let options := Plugin.options p in
  let emitCount := emit_count p w in
  let counts := emit_counts p w in
  let manifest := build_manifest options files in
  let p' := set_options p (seed_after options manifest) in
  let isLastEmit := Js.is_zero emitCount in
  if isLastEmit then
    let output := Options.serialize options manifest in
    let c' := Compilation.set_asset c (Plugin.outputName p) output in
    let trace := World.trace w ++ [AssetSet (Plugin.outputName p) output] in
    if Options.writeToFileEmit options then
      match Fs.outputFileSync (World.disk w) (Plugin.outputFile p) output with
      | Some disk =>
          Normal
            {| EmitState.plugin := p';
               EmitState.compilation := c';
               EmitState.world :=
                 {| World.emitCountMap := counts;
                    World.disk := disk;
                    World.trace :=
                      trace ++ [FileWritten (Plugin.outputFile p) output;
                                AfterEmit manifest] |} |}
      | None =>
          Throw
            {| EmitState.plugin := p';
               EmitState.compilation := c';
               EmitState.world :=
                 {| World.emitCountMap := counts;
                    World.disk := World.disk w;
                    World.trace := trace |} |}
      end
    else
      Normal
        {| EmitState.plugin := p';
           EmitState.compilation := c';
           EmitState.world :=
             {| World.emitCountMap := counts;
                World.disk := World.disk w;
                World.trace := trace ++ [AfterEmit manifest] |} |}
  else
    Normal
      {| EmitState.plugin := p';
         EmitState.compilation := c;
         EmitState.world :=
           {| World.emitCountMap := counts;
              World.disk := World.disk w;
              World.trace := World.trace w ++ [AfterEmit manifest] |} |}.

(** [emit(compilation, compileCallback)]. The counter is stored first; when
    the first filter throws, nothing else has been done. *)
Definition emit `{Runtime} (p : Plugin.t) (c : Compilation.t) (w : World.t)
  : completion EmitState.t :=
  match emit_files p c (emit_counts p w) with
  | Some files => emit_rest p c w files
  | None =>
      Throw
        {| EmitState.plugin := p;
           EmitState.compilation := c;
           EmitState.world :=
             {| World.emitCountMap := emit_counts p w;
                World.disk := World.disk w;
                World.trace := World.trace w |} |}
  end.

(** ** A runtime to run the definitions on

    Node's POSIX [path] functions on the inputs used below: an absolute,
    normalized folder, and plain relative names (no empty, [.] or [..]
    segment). [JSON.stringify(manifest, null, 2)] lists the keys in the
    order of the map, where JavaScript lists them in the order of their
    insertion; no statement below reads the text. *)

Definition plain_basename (s : string) : string :=
  Js.to_string (last (Js.split "/" s)).

Definition plain_dirname (s : string) : string :=
  match removelast (Js.split "/" s) with
  | [] => "."
  | seg :: segs => fold_left (fun acc x => acc +:+ "/" +:+ x) segs seg
  end.

Definition plain_join (a b : string) : string :=
  if String.eqb a "." then b else a +:+ "/" +:+ b.

Definition plain_resolve (folder name : string) : string :=
  folder +:+ "/" +:+ name.

Definition plain_relative (folder file : string) : string :=
  let pre := folder +:+ "/" in
  if Js.starts_with pre file
  then String.substring (String.length pre) (String.length file - String.length pre) file
  else file.

Definition dquote : string := String (ascii_of_nat 34) "".

Definition hex_digit (n : nat) : string :=
  String.substring n 1 "0123456789abcdef".

(** The escapes of a JSON string. *)
Fixpoint json_escape (s : string) : string :=
  match s with
  | EmptyString => EmptyString
  | String c s' =>
      let n := nat_of_ascii c in
      (if Nat.eqb n 34 then "\" +:+ dquote
       else if Nat.eqb n 92 then "\\"
       else if Nat.eqb n 8 then "\b"
       else if Nat.eqb n 9 then "\t"
       else if Nat.eqb n 10 then "\n"
       else if Nat.eqb n 12 then "\f"
       else if Nat.eqb n 13 then "\r"
       else if Nat.ltb n 32 then "\u00" +:+ hex_digit (Nat.div n 16) +:+ hex_digit (Nat.modulo n 16)
       else String c EmptyString) +:+ json_escape s'
  end.

Definition json_member (kv : string * string) : string :=
  "  " +:+ dquote +:+ json_escape (fst kv) +:+ dquote +:+ ": " +:+
  dquote +:+ json_escape (snd kv) +:+ dquote.

Definition plain_stringify (manifest : gmap string string) : string :=
  let newline := String Js.LF EmptyString in
  match map_to_list manifest with
  | [] => "{}"
  | kv :: kvs =>
      "{" +:+ newline +:+
      fold_left (fun acc kv => acc +:+ "," +:+ newline +:+ json_member kv) kvs
        (json_member kv) +:+
      newline +:+ "}"
  end.

(** A stable insertion sort: [cmp a b > 0] puts [a] after [b]. *)
Fixpoint sort_insert {A : Type} (cmp : A -> A -> Z) (x : A) (l : list A) : list A :=
  match l with
  | [] => [x]
  | y :: l' => if 0 <? cmp x y then y :: sort_insert cmp x l' else x :: l
  end.

Definition plain_sort (A : Type) (cmp : A -> A -> Z) (l : list A) : list A :=
  fold_right (sort_insert cmp) [] l.

Definition plain_runtime : Runtime :=
  {| path_join := plain_join;
     path_resolve := plain_resolve;
     path_relative := plain_relative;
     path_dirname := plain_dirname;
     path_basename := plain_basename;
     JSON_stringify := plain_stringify;
     Array_sort := plain_sort;
     Array_sort_permutation :=
       ltac:(intros A cmp l; unfold plain_sort;
             induction l as [|x l IH]; simpl; [reflexivity|];
             rewrite <- IH at 2; generalize (fold_right (sort_insert cmp) [] l);
             clear; intros l; induction l as [|y l IH]; simpl; [reflexivity|];
             destruct (0 <? cmp x y); [|reflexivity];
             rewrite IH; apply Permutation_swap) |}.

(** ** Vocabulary of the statements *)

(** [c] occurs in [s]. *)
Fixpoint has_char (c : ascii) (s : string) : bool :=
  match s with
  | EmptyString => false
  | String d s' => Ascii.eqb d c || has_char c s'
  end.

(** A line terminator occurs in [s]. *)
Fixpoint has_line_terminator (s : string) : bool :=
  Js.at_line_terminator s ||
  match s with
  | EmptyString => false
  | String _ s' => has_line_terminator s'
  end.

(** The path with its query-string suffix stripped: what stands before the
    first [?] (the whole path when it has none). *)
Fixpoint before_query (s : string) : string :=
  match s with
  | EmptyString => EmptyString
  | String c s' => if Ascii.eqb c "?" then EmptyString else String c (before_query s')
  end.

(** The text after the first [?]. *)
Fixpoint query_of (s : string) : string :=
  match s with
  | EmptyString => EmptyString
  | String c s' => if Ascii.eqb c "?" then s' else query_of s'
  end.

(** The rule of the file type, on a stripped path: the final dot-segment,
    or, when the pattern matches it, the second-to-last segment, a dot and
    that segment. *)
Definition file_type_rule (options : Options.t) (stripped result : string) : Prop :=
  ∃ rest ext,
    Js.split "." stripped = rest ++ [ext] ∧
    (Options.transformExtensions options ext = false → result = ext) ∧
    (Options.transformExtensions options ext = true →
     ∀ prev, last rest = Some prev → result = prev +:+ "." +:+ ext).

(** An entry is noise when its path contains [hot-update] or when its
    name, joined onto the output folder, is a path with a registered emit
    counter. *)
Definition is_noise `{Runtime} (outputFolder : string) (counts : gmap string Js.num)
  (file : FileEntry.t) : Prop :=
  (∃ a b, FileEntry.path file = a +:+ "hot-update" +:+ b) ∨
  is_Some (counts !! path_join outputFolder (FileEntry.name file)).

(** [file'] differs from [file] in its name and path at most. *)
Definition same_origin (file file' : FileEntry.t) : Prop :=
  FileEntry.chunk file' = FileEntry.chunk file ∧
  FileEntry.isInitial file' = FileEntry.isInitial file ∧
  FileEntry.isChunk file' = FileEntry.isChunk file ∧
  FileEntry.isAsset file' = FileEntry.isAsset file ∧
  FileEntry.isModuleAsset file' = FileEntry.isModuleAsset file.

(** [r] is [s] with each backslash turned into a slash, position by
    position. *)
Definition slashed (s r : string) : Prop :=
  String.length r = String.length s ∧
  ∀ k c, String.get k s = Some c →
         String.get k r = Some (if Ascii.eqb c "\" then "/"%char else c).

(** The writes of a trace: the manifest put into the assets of a
    compilation, and the manifest written to disk. *)
Definition is_write (e : event) : bool :=
  match e with
  | AssetSet _ _ | FileWritten _ _ => true
  | AfterEmit _ => false
  end.

Definition writes (trace : list event) : list event := List.filter is_write trace.

(** The counter of the instance's output file. *)
Definition counter (p : Plugin.t) (w : World.t) : option Js.num :=
  World.emitCountMap w !! Plugin.outputFile p.

(** ** Entries, inputs and runs used in the statements *)

(** A path whose query string runs over a line break. *)
Definition path_with_line_break : string := "a?b" +:+ String Js.LF "c.d".

(** The entries of the files of one chunk. *)
Definition entries_of_chunk (options : Options.t) (chunk : Chunk.t)
  : list FileEntry.t :=
  List.map (chunk_file_entry options chunk) (Chunk.files chunk).

(** The entry of an asset that the side map names [n]. *)
Definition module_asset_entry (asset : Asset.t) (n : string) : FileEntry.t :=
  {| FileEntry.path := Asset.name asset;
     FileEntry.chunk := None;
     FileEntry.name := n;
     FileEntry.isInitial := false;
     FileEntry.isChunk := false;
     FileEntry.isAsset := true;
     FileEntry.isModuleAsset := true |}.

(** An instance that was told of one module asset, and a compilation that
    emitted it. *)
Definition plugin_with_module_asset : Plugin.t :=
  @moduleAsset plain_runtime (@apply plain_runtime (@defaults plain_runtime) "/dist")
    "/project/src/logo.png" "static/logo.3f2a.png".

Definition compilation_with_module_asset : Compilation.t :=
  {| Compilation.chunks := [];
     Compilation.statsAssets :=
       [ {| Asset.name := "static/logo.3f2a.png"; Asset.chunks := [] |} ];
     Compilation.publicPath := None;
     Compilation.assets := ∅ |}.

(** The last file of the list named [k]. *)
Definition last_named (k : string) (files : list FileEntry.t) : option FileEntry.t :=
  List.find (fun file => String.eqb (FileEntry.name file) k) (rev files).

(** Two files named ['app.js'], of different paths. *)
Definition two_app_js : list FileEntry.t :=
  [ {| FileEntry.path := "app.1.js"; FileEntry.chunk := None;
       FileEntry.name := "app.js"; FileEntry.isInitial := false;
       FileEntry.isChunk := false; FileEntry.isAsset := true;
       FileEntry.isModuleAsset := false |};
    {| FileEntry.path := "app.2.js"; FileEntry.chunk := None;
       FileEntry.name := "app.js"; FileEntry.isInitial := false;
       FileEntry.isChunk := false; FileEntry.isAsset := true;
       FileEntry.isModuleAsset := false |} ].

(** The asset belongs to no chunk. *)
Definition in_no_chunk (asset : Asset.t) : bool :=
  match Asset.chunks asset with
  | [] => true
  | _ :: _ => false
  end.

(** The entry of a plain asset. *)
Definition plain_asset_entry (asset : Asset.t) : FileEntry.t :=
  {| FileEntry.path := Asset.name asset;
     FileEntry.chunk := None;
     FileEntry.name := Asset.name asset;
     FileEntry.isInitial := false;
     FileEntry.isChunk := false;
     FileEntry.isAsset := true;
     FileEntry.isModuleAsset := false |}.

Definition main_chunk : Chunk.t :=
  {| Chunk.name := Some "main";
     Chunk.files := ["main.js"; "main.js.map"];
     Chunk.isOnlyInitial := Some true;
     Chunk.isInitial := None;
     Chunk.initial := false |}.

(** The listing of the engine: the two files of the chunk, and the icon. *)
Definition main_compilation : Compilation.t :=
  {| Compilation.chunks := [main_chunk];
     Compilation.statsAssets :=
       [ {| Asset.name := "main.js"; Asset.chunks := [0] |};
         {| Asset.name := "main.js.map"; Asset.chunks := [0] |};
         {| Asset.name := "favicon.ico"; Asset.chunks := [] |} ];
     Compilation.publicPath := Some "";
     Compilation.assets := ∅ |}.

Definition fresh_world : World.t :=
  {| World.emitCountMap := ∅;
     World.disk := {| Fs.files := ∅; Fs.failing := ∅ |};
     World.trace := [] |}.

Definition dist_plugin : Plugin.t :=
  @apply plain_runtime (@defaults plain_runtime) "/dist".


Definition compilation_with_manifest : Compilation.t :=
  {| Compilation.chunks := [];
     Compilation.statsAssets :=
       [ {| Asset.name := "manifest.json"; Asset.chunks := [] |};
         {| Asset.name := "favicon.ico"; Asset.chunks := [] |} ];
     Compilation.publicPath := None;
     Compilation.assets := ∅ |}.

(** The process after one whole cycle: [beforeRun], then [emit]. *)
Definition world_after_one_cycle : World.t :=
  EmitState.world
    (state_of (@emit plain_runtime dist_plugin main_compilation
                 (beforeRun dist_plugin fresh_world))).

(** ** The engine's notifications, in sequence *)

(** What the engine tells one instance: a cycle starts ([run], [watchRun]),
    or the assets of a compilation are final ([emit]). *)
Inductive notification : Type :=
| Start
| Emit (c : Compilation.t).

(** The instance and the process after the notifications [ns], delivered in
    order; an [emit] that threw leaves the state it reached. *)
Fixpoint run `{Runtime} (p : Plugin.t) (ns : list notification) (w : World.t)
  : Plugin.t * World.t :=
  match ns with
  | [] => (p, w)
  | Start :: ns' => run p ns' (beforeRun p w)
  | Emit c :: ns' =>
      let s := state_of (emit p c w) in
      run (EmitState.plugin s) ns' (EmitState.world s)
  end.

(** One whole cycle per compilation: a start, then its emit. *)
Definition cycles (cs : list Compilation.t) : list notification :=
  flat_map (fun c => [Start; Emit c]) cs.

(** The asset yields an entry: the side map names it, or it is in no
    chunk. *)
Definition yields_entry (moduleAssets : gmap string string) (asset : Asset.t) : bool :=
  match Js.get moduleAssets (Asset.name asset) with
  | Some v => truthy_value v
  | None => false
  end || in_no_chunk asset.

(** The asset does not take its name from [Object.prototype]: it is a key
    [moduleAssets] owns, or is not called as a member of the prototype. *)
Definition asset_named (moduleAssets : gmap string string) (asset : Asset.t) : bool :=
  match moduleAssets !! Asset.name asset with
  | Some _ => true
  | None => negb (Js.inherited (Asset.name asset))
  end.

(** No asset of the listing takes a name from [Object.prototype]. *)
Definition listing_named (moduleAssets : gmap string string) (c : Compilation.t)
  : bool :=
  forallb (asset_named moduleAssets) (Compilation.statsAssets c).

(** A module asset of a chunk, announced and emitted. *)
Definition chunk_module_asset : Asset.t :=
  {| Asset.name := "static/logo.3f2a.png"; Asset.chunks := [0] |}.

Definition compilation_with_chunk_module_asset : Compilation.t :=
  {| Compilation.chunks := [];
     Compilation.statsAssets := [chunk_module_asset];
     Compilation.publicPath := None;
     Compilation.assets := ∅ |}.

(** An instance with a seed, as a caller keeps entries of an earlier
    build. *)
Definition seeded_plugin : Plugin.t :=
  @apply plain_runtime
    (Options.set_seed (@defaults plain_runtime) (Some {[ "legacy.js" := "legacy.js" ]}))
    "/dist".

(** The icon of the listing, as it reaches the manifest. *)
Definition favicon_entry : FileEntry.t :=
  plain_asset_entry {| Asset.name := "favicon.ico"; Asset.chunks := [] |}.

(** An instance that also writes to disk, and a disk that refuses its
    file. *)
Definition writing_plugin : Plugin.t :=
  @apply plain_runtime
    {| Options.publicPath := None;
       Options.basePath := "";
       Options.fileName := "manifest.json";
       Options.transformExtensions := Js.test_gz_map;
       Options.writeToFileEmit := true;
       Options.seed := None;
       Options.filter := None;
       Options.map := None;
       Options.generate := None;
       Options.sort := None;
       Options.serialize := plain_stringify |}
    "/dist".

Definition world_with_full_disk : World.t :=
  {| World.emitCountMap := {[ "/dist/manifest.json" := Js.Num 1 ]};
     World.disk := {| Fs.files := ∅; Fs.failing := {[ "/dist/manifest.json" ]} |};
     World.trace := [] |}.

(** A chunk without a name that lists a file called ['__proto__']. *)
Definition proto_file_entry : FileEntry.t :=
  {| FileEntry.path := "__proto__";
     FileEntry.chunk :=
       Some {| Chunk.name := None; Chunk.files := ["__proto__"; "app.js"];
               Chunk.isOnlyInitial := Some true; Chunk.isInitial := None;
               Chunk.initial := false |};
     FileEntry.name := "__proto__";
     FileEntry.isInitial := true;
     FileEntry.isChunk := true;
     FileEntry.isAsset := false;
     FileEntry.isModuleAsset := false |}.

Definition app_js_entry : FileEntry.t :=
  FileEntry.set_path (FileEntry.set_name proto_file_entry "app.js") "app.js".

Definition compilation_with_proto_file : Compilation.t :=
  {| Compilation.chunks :=
       [ {| Chunk.name := None; Chunk.files := ["__proto__"; "app.js"];
            Chunk.isOnlyInitial := Some true; Chunk.isInitial := None;
            Chunk.initial := false |} ];
     Compilation.statsAssets := [];
     Compilation.publicPath := None;
     Compilation.assets := ∅ |}.

(** A listing with an asset called as the constructor of plain objects. *)
Definition compilation_with_constructor_asset : Compilation.t :=
  {| Compilation.chunks := [main_chunk];
     Compilation.statsAssets :=
       [ {| Asset.name := "main.js"; Asset.chunks := [0] |};
         {| Asset.name := "constructor"; Asset.chunks := [0] |} ];
     Compilation.publicPath := None;
     Compilation.assets := ∅ |}.

(** * Properties *)

(** ** Strings *)

Lemma append_cons (c : ascii) (a b : string) :
  String c a +:+ b = String c (a +:+ b).
Proof. reflexivity. Qed.

Lemma append_nil_l (b : string) : "" +:+ b = b.
Proof. reflexivity. Qed.

Lemma append_nil_r (s : string) : s +:+ "" = s.
Proof. induction s as [|c s IH]; [done|]. by rewrite append_cons, IH. Qed.

Lemma split_snoc (sep : ascii) (s : string) :
  ∃ rest ext, Js.split sep s = rest ++ [ext].
Proof.
  induction s as [|c s IH]; simpl.
  - by exists [], "".
  - destruct IH as (rest & ext & E). rewrite E.
    destruct (Ascii.eqb c sep).
    + by exists ("" :: rest), ext.
    + destruct rest as [|seg segs]; simpl.
      * by exists [], (String c ext).
      * by exists (String c seg :: segs), ext.
Qed.

Lemma pop_snoc {A : Type} (rest : list A) (x : A) :
  Js.pop (rest ++ [x]) = (Some x, rest).
Proof. unfold Js.pop. by rewrite last_snoc, removelast_last. Qed.



Lemma after_dot_star_one_line (s : string) :
  has_line_terminator s = false → Js.after_dot_star s = "".
Proof.
  induction s as [|c s IH]; [done|].
  cbn [has_line_terminator Js.after_dot_star].
  intros [H1 H2]%orb_false_iff. rewrite H1. by apply IH.
Qed.

(** [replace] removes the first [?] and what follows it on its line. *)
Lemma replace_query_split (s : string) :
  Js.replace_query s = before_query s +:+ Js.after_dot_star (query_of s).
Proof.
  induction s as [|c s IH]; simpl; [done|].
  destruct (Ascii.eqb c "?"); [done|]. by rewrite append_cons, IH.
Qed.

Lemma replace_query_one_line (s : string) :
  has_line_terminator (query_of s) = false → Js.replace_query s = before_query s.
Proof.
  intros H. rewrite replace_query_split, (after_dot_star_one_line _ H).
  apply append_nil_r.
Qed.

Lemma starts_with_append (sub b : string) : Js.starts_with sub (sub +:+ b) = true.
Proof.
  induction sub as [|d sub IH]; [done|].
  rewrite append_cons. simpl. by rewrite Ascii.eqb_refl, IH.
Qed.

Lemma starts_with_app (sub s : string) :
  Js.starts_with sub s = true → ∃ b, s = sub +:+ b.
Proof.
  revert s. induction sub as [|d sub IH]; intros s; simpl.
  - by exists s.
  - destruct s as [|c s]; [done|].
    intros [->%Ascii.eqb_eq (b & ->)%IH]%andb_true_iff. by exists b.
Qed.

Lemma includes_intro (sub a b : string) : Js.includes sub (a +:+ sub +:+ b) = true.
Proof.
  induction a as [|c a IH].
  - rewrite append_nil_l.
    assert (Js.starts_with sub (sub +:+ b) = true) as H by apply starts_with_append.
    destruct (sub +:+ b); simpl; by rewrite H.
  - rewrite append_cons. simpl. rewrite IH. apply orb_true_r.
Qed.

(** [indexOf(sub) >= 0] is: [sub] is a substring. *)
Lemma includes_spec (sub s : string) :
  Js.includes sub s = true ↔ ∃ a b, s = a +:+ sub +:+ b.
Proof.
  split.
  - induction s as [|c s IH]; simpl.
    + rewrite orb_false_r. intros (b & E)%starts_with_app. by exists "", b.
    + intros [H|H]%orb_true_iff.
      * apply starts_with_app in H as (b & E). by exists "", b.
      * destruct (IH H) as (a & b & ->). by exists (String c a), b.
  - intros (a & b & ->). apply includes_intro.
Qed.

(** The primitives on the values JavaScript gives. *)

Example split_trailing_dot : Js.split "." "a..b." = ["a"; ""; "b"; ""].
Proof. reflexivity. Qed.

Example split_empty : Js.split "." "" = [""].
Proof. reflexivity. Qed.

Example pop_empty : Js.pop (A := string) [] = (None, []).
Proof. reflexivity. Qed.

Example replace_query_first_only : Js.replace_query "a.js?x=1?y=2" = "a.js".
Proof. reflexivity. Qed.

Example replace_query_stops_at_line_break :
  Js.replace_query ("a?b" +:+ String Js.CR "c?d") = "a" +:+ String Js.CR "c?d".
Proof. reflexivity. Qed.

Example test_gz_map_cases :
  Js.test_gz_map "gz" = true ∧ Js.test_gz_map "MAP" = true ∧
  Js.test_gz_map "Gz" = true ∧ Js.test_gz_map "js" = false ∧
  Js.test_gz_map "map " = false ∧ Js.test_gz_map "" = false.
Proof. by repeat split. Qed.

Example includes_hot_update :
  Js.includes "hot-update" "main.4f2e.hot-update.js" = true ∧
  Js.includes "hot-update" "hot-updat.js" = false.
Proof. by split. Qed.

Example replace_backslashes_all :
  Js.replace_backslashes "img\sub\a.png" = "img/sub/a.png".
Proof. reflexivity. Qed.

Example counter_arithmetic :
  Js.sub (Js.to_number None) 1 = Js.NaN ∧
  Js.add (Js.or_zero (Some Js.NaN)) 1 = Js.Num 1 ∧
  Js.add (Js.or_zero (Some (Js.Num (-1)))) 1 = Js.Num 0 ∧
  Js.is_zero Js.NaN = false.
Proof. by repeat split. Qed.

(** ** getFileType *)

(** The rule of the file type holds of the path as [replace] leaves it. *)
Lemma getFileType_rule (options : Options.t) (path : string) :
  file_type_rule options (Js.replace_query path) (getFileType options path).
Proof.
  unfold file_type_rule, getFileType.
  destruct (split_snoc "." (Js.replace_query path)) as (rest & ext & E).
  exists rest, ext. split; [done|].
  rewrite E, pop_snoc. simpl Js.to_string.
  destruct (Options.transformExtensions options ext); split; try done.
  intros _ prev Hprev. unfold Js.pop. by rewrite Hprev.
Qed.


(** C3, on the input where the code departs from it: in ["a?b<LF>c.d"] the
    query-string suffix runs from the [?] to the end, and the path stripped
    of it is ["a"], whose final segment is ["a"] and does not match the
    default pattern. But the dot of [/\?.*/] stops at the line break:
    the replacement leaves ["a<LF>c.d"], and [getFileType] answers ["d"]. *)
Lemma getFileType_query_over_line_break :
  before_query path_with_line_break = "a" ∧
  Js.replace_query path_with_line_break = "a" +:+ String Js.LF "c.d" ∧
  getFileType (@defaults plain_runtime) path_with_line_break = "d" ∧
  ¬ file_type_rule (@defaults plain_runtime)
      (before_query path_with_line_break)
      (getFileType (@defaults plain_runtime) path_with_line_break).
Proof.
  split; [reflexivity|]. split; [reflexivity|]. split; [reflexivity|].
  intros (rest & ext & E & Hno & _).
  change (["a"] = rest ++ [ext]) in E.
  destruct rest as [|x [|y rest]]; simplify_eq/=.
  specialize (Hno eq_refl). discriminate.
Qed.

(** X18: on every path in which no line terminator follows the
    first [?], the file type is computed from the path stripped of its
    query-string suffix: the final dot-segment, or, when the pattern matches
    that segment, the second-to-last segment, a dot and the matched segment.
    On any path, what is stripped is the first [?] and the text after it up
    to the next line terminator. With the default pattern,
    ['bundle.js.map'] gives ['js.map'], ['style.css'] gives ['css'] and
    ['data.json?v=2'] gives ['json']. *)
Theorem getFileType_spec :
  (∀ options path,
     has_line_terminator (query_of path) = false →
     file_type_rule options (before_query path) (getFileType options path)) ∧
  (∀ options path,
     file_type_rule options
       (before_query path +:+ Js.after_dot_star (query_of path))
       (getFileType options path)) ∧
  (∀ R : Runtime,
     getFileType defaults "bundle.js.map" = "js.map" ∧
     getFileType defaults "style.css" = "css" ∧
     getFileType defaults "data.json?v=2" = "json").
Proof.
  split; [|split].
  - intros options path H. rewrite <- (replace_query_one_line _ H).
    apply getFileType_rule.
  - intros options path. rewrite <- replace_query_split. apply getFileType_rule.
  - intros R. by repeat split.
Qed.

Lemma getFileType_spec_witness :
  file_type_rule (@defaults plain_runtime) (before_query "app.js.gz?v=2")
    (getFileType (@defaults plain_runtime) "app.js.gz?v=2").
Proof. apply (proj1 getFileType_spec). reflexivity. Defined.



(** ** The stages of the file list *)

Lemma replace_backslashes_slashed (s : string) :
  slashed s (Js.replace_backslashes s).
Proof.
  unfold Js.replace_backslashes. split.
  - induction s as [|c s IH]; simpl; [done|]. by rewrite IH.
  - induction s as [|c s IH]; intros k d; [done|].
    destruct k as [|k]; simpl.
    + by intros [= ->].
    + apply IH.
Qed.

Lemma replace_backslashes_clean (s : string) :
  has_char "\" (Js.replace_backslashes s) = false.
Proof.
  unfold Js.replace_backslashes. induction s as [|c s IH]; simpl; [done|].
  rewrite IH, orb_false_r. by destruct (Ascii.eqb c "\") eqn:E.
Qed.

Lemma replace_backslashes_id (s : string) :
  has_char "\" s = false → Js.replace_backslashes s = s.
Proof.
  unfold Js.replace_backslashes. induction s as [|c s IH]; simpl; [done|].
  intros [Hc Hs]%orb_false_iff. rewrite Hc. f_equal. by apply IH.
Qed.

Lemma normalize_entry_id (file : FileEntry.t) :
  has_char "\" (FileEntry.name file) = false →
  has_char "\" (FileEntry.path file) = false →
  normalize_entry file = file.
Proof.
  intros Hn Hp. destruct file; simpl in *.
  unfold normalize_entry, FileEntry.set_path, FileEntry.set_name; simpl.
  by rewrite (replace_backslashes_id _ Hn), (replace_backslashes_id _ Hp).
Qed.

Lemma normalize_entry_idem (file : FileEntry.t) :
  normalize_entry (normalize_entry file) = normalize_entry file.
Proof. apply normalize_entry_id; apply replace_backslashes_clean. Qed.

(** C9: the normalization keeps the entries in place, turns every
    backslash of [name] and of [path] into a slash (no backslash is left),
    changes nothing else, and is idempotent; a list without backslashes
    comes back unchanged. *)
Theorem normalize_separators_spec :
  (∀ files,
     Forall2
       (fun file file' =>
          slashed (FileEntry.name file) (FileEntry.name file') ∧
          slashed (FileEntry.path file) (FileEntry.path file') ∧
          has_char "\" (FileEntry.name file') = false ∧
          has_char "\" (FileEntry.path file') = false ∧
          same_origin file file')
       files (normalize_separators files)) ∧
  (∀ files,
     normalize_separators (normalize_separators files) = normalize_separators files) ∧
  (∀ files,
     Forall (fun file => has_char "\" (FileEntry.name file) = false ∧
                         has_char "\" (FileEntry.path file) = false) files →
     normalize_separators files = files).
Proof.
  split; [|split].
  - intros files. unfold normalize_separators.
    induction files as [|file files IH]; simpl; constructor; [|done].
    repeat split; simpl;
      try apply replace_backslashes_slashed; apply replace_backslashes_clean.
  - intros files. unfold normalize_separators. rewrite List.map_map.
    apply List.map_ext. intros file. apply normalize_entry_idem.
  - intros files H. unfold normalize_separators.
    induction H as [|file files [Hn Hp] _ IH]; simpl; [done|].
    by rewrite IH, normalize_entry_id.
Qed.

Lemma record_eta_name (file : FileEntry.t) :
  FileEntry.set_name file (FileEntry.name file) = file.
Proof. by destruct file. Qed.

Lemma record_eta_path (file : FileEntry.t) :
  FileEntry.set_path file (FileEntry.path file) = file.
Proof. by destruct file. Qed.

Lemma prefix_basePath_map (basePath : string) (files : list FileEntry.t) :
  prefix_basePath basePath files =
  List.map (fun file => FileEntry.set_name file (basePath +:+ FileEntry.name file)) files.
Proof.
  unfold prefix_basePath. destruct basePath as [|c bp]; simpl; [|done].
  induction files as [|file files IH]; simpl; [done|].
  by rewrite <- IH, append_nil_l, record_eta_name.
Qed.

Lemma prefix_publicPath_map (publicPath : option string) (files : list FileEntry.t) :
  prefix_publicPath publicPath files =
  List.map
    (fun file => FileEntry.set_path file (default "" publicPath +:+ FileEntry.path file))
    files.
Proof.
  unfold prefix_publicPath.
  assert (files = List.map (fun file => FileEntry.set_path file ("" +:+ FileEntry.path file)) files) as Hid.
  { induction files as [|file files IH]; simpl; [done|].
    by rewrite <- IH, append_nil_l, record_eta_path. }
  destruct publicPath as [[|c pp]|]; simpl; done.
Qed.

(** C7: the base-path stage prepends the base path to the name of every
    entry and leaves its path alone; the public-path stage prepends the
    public path (the option of the plugin, or that of the engine when the
    option is null or undefined; nothing when neither is set) to the path
    of every entry and leaves its name alone. Both keep the entries in
    place and leave every other field as it was. *)
Theorem prefix_stages_frame :
  (∀ basePath files,
     Forall2
       (fun file file' =>
          FileEntry.name file' = basePath +:+ FileEntry.name file ∧
          FileEntry.path file' = FileEntry.path file ∧
          same_origin file file')
       files (prefix_basePath basePath files)) ∧
  (∀ options c files,
     let publicPath :=
       match Options.publicPath options with
       | Some pp => pp
       | None => default "" (Compilation.publicPath c)
       end in
     Forall2
       (fun file file' =>
          FileEntry.path file' = publicPath +:+ FileEntry.path file ∧
          FileEntry.name file' = FileEntry.name file ∧
          same_origin file file')
       files (prefix_publicPath (effective_publicPath options c) files)).
Proof.
  split.
  - intros basePath files. rewrite prefix_basePath_map.
    induction files as [|file files IH]; simpl; constructor; [|done].
    by repeat split.
  - intros options c files publicPath. rewrite prefix_publicPath_map.
    assert (default "" (effective_publicPath options c) = publicPath) as ->.
    { unfold effective_publicPath, publicPath.
      by destruct (Options.publicPath options). }
    induction files as [|file files IH]; simpl; constructor; [|done].
    by repeat split.
Qed.

(** The first filter of [emit], entry by entry. *)
Lemma noise_filter_cons `{Runtime} (outputFolder : string)
  (counts : gmap string Js.num) (file : FileEntry.t) (files : list FileEntry.t) :
  (is_noise outputFolder counts file →
   noise_filter outputFolder counts (file :: files) =
   noise_filter outputFolder counts files) ∧
  (¬ is_noise outputFolder counts file →
   noise_filter outputFolder counts (file :: files) =
   file :: noise_filter outputFolder counts files).
Proof.
  unfold is_noise, noise_filter. simpl.
  destruct (Js.includes "hot-update" (FileEntry.path file)) eqn:Hhot; simpl.
  - apply includes_spec in Hhot. split; [done|]. intros Hn. destruct Hn. by left.
  - assert (¬ ∃ a b, FileEntry.path file = a +:+ "hot-update" +:+ b) as Hnot.
    { intros Hex. apply includes_spec in Hex. congruence. }
    destruct (counts !! path_join outputFolder (FileEntry.name file)) eqn:Hc; simpl.
    + split; [done|]. intros Hn. destruct Hn. right. by eexists.
    + split; [|done]. intros [Hex|[x Hx]]; [by destruct Hnot | discriminate].
Qed.

Lemma is_noise_or_not `{Runtime} (outputFolder : string)
  (counts : gmap string Js.num) (file : FileEntry.t) :
  is_noise outputFolder counts file ∨ ¬ is_noise outputFolder counts file.
Proof.
  unfold is_noise.
  destruct (Js.includes "hot-update" (FileEntry.path file)) eqn:Hhot.
  - left. left. by apply includes_spec.
  - destruct (counts !! path_join outputFolder (FileEntry.name file)) eqn:Hc.
    + left. right. by eexists.
    + right. intros [Hex|[x Hx]]; [|discriminate].
      apply includes_spec in Hex. congruence.
Qed.

Lemma noise_filter_In `{Runtime} (outputFolder : string)
  (counts : gmap string Js.num) (files : list FileEntry.t) (file : FileEntry.t) :
  In file (noise_filter outputFolder counts files) ↔
  In file files ∧ ¬ is_noise outputFolder counts file.
Proof.
  induction files as [|f files IH]; [simpl; tauto|].
  destruct (noise_filter_cons outputFolder counts f files) as [Hdrop Hkeep].
  destruct (is_noise_or_not outputFolder counts f) as [Hn|Hn].
  - rewrite (Hdrop Hn), IH. simpl. split.
    + intros [Hin Hnot]. split; [by right | done].
    + intros [[->|Hin] Hnot]; done.
  - rewrite (Hkeep Hn). simpl. rewrite IH. split.
    + intros [->|[Hin Hnot]]; (split; [by auto | done]).
    + intros [[->|Hin] Hnot]; [by left | by right].
Qed.

(** During [emit] the instance's own output file has a counter: [emit]
    has just stored it. *)
Lemma emit_counts_own (p : Plugin.t) (w : World.t) :
  emit_counts p w !! Plugin.outputFile p = Some (emit_count p w).
Proof. unfold emit_counts. apply lookup_insert_eq. Qed.

Lemma emit_counts_other (p : Plugin.t) (w : World.t) (file : string) :
  file ≠ Plugin.outputFile p →
  emit_counts p w !! file = World.emitCountMap w !! file.
Proof. intros Hne. unfold emit_counts. by apply lookup_insert_ne. Qed.



(** ** The classifier *)

Lemma fold_left_snoc_map {A B : Type} (f : B → A) (l : list B) (init : list A) :
  fold_left (fun acc x => acc ++ [f x]) l init = init ++ List.map f l.
Proof.
  revert init. induction l as [|x l IH]; intros init; simpl.
  - by rewrite app_nil_r.
  - by rewrite IH, <- app_assoc.
Qed.

Lemma chunk_entries_flat (options : Options.t) (chunks : list Chunk.t) :
  chunk_entries options chunks =
  List.map FileEntry.raw (flat_map (entries_of_chunk options) chunks).
Proof.
  unfold chunk_entries.
  assert (∀ init,
    fold_left
      (fun files chunk =>
         fold_left
           (fun files path =>
              files ++ [FileEntry.raw (chunk_file_entry options chunk path)])
           (Chunk.files chunk) files)
      chunks init
    = init ++ List.map FileEntry.raw (flat_map (entries_of_chunk options) chunks))
    as Hgen.
  { induction chunks as [|chunk chunks IH]; intros init; simpl.
    - by rewrite app_nil_r.
    - rewrite IH, (fold_left_snoc_map
                     (fun path => FileEntry.raw (chunk_file_entry options chunk path))),
        List.map_app, <- app_assoc.
      unfold entries_of_chunk. by rewrite List.map_map. }
  apply Hgen.
Qed.

Lemma asset_step_app (moduleAssets : gmap string string)
  (files : list (FileEntry.entry Js.value)) (asset : Asset.t) :
  asset_step moduleAssets files asset = files ++ asset_step moduleAssets [] asset.
Proof.
  unfold asset_step.
  destruct (Js.get moduleAssets (Asset.name asset)) as [v|]; simpl.
  - destruct (truthy_value v); [done|].
    destruct (0 <? Z.of_nat (length (Asset.chunks asset))); [|done].
    by rewrite app_nil_r.
  - destruct (0 <? Z.of_nat (length (Asset.chunks asset))); [|done].
    by rewrite app_nil_r.
Qed.

Lemma fold_asset_step (moduleAssets : gmap string string)
  (assets : list Asset.t) (init : list (FileEntry.entry Js.value)) :
  fold_left (asset_step moduleAssets) assets init =
  init ++ flat_map (asset_step moduleAssets []) assets.
Proof.
  revert init. induction assets as [|asset assets IH]; intros init; simpl.
  - by rewrite app_nil_r.
  - by rewrite IH, asset_step_app, <- app_assoc.
Qed.

(** The classified list: the files of the chunks, chunk by chunk, then the
    entries of the assets, asset by asset. *)
Lemma classify_flat (options : Options.t) (moduleAssets : gmap string string)
  (c : Compilation.t) :
  classify options moduleAssets c =
  List.map FileEntry.raw (flat_map (entries_of_chunk options) (Compilation.chunks c)) ++
  flat_map (asset_step moduleAssets []) (Compilation.statsAssets c).
Proof. unfold classify. by rewrite fold_asset_step, chunk_entries_flat. Qed.

(** Reads and assignments on a plain object. *)
Lemma get_own (o : gmap string string) (k v : string) :
  o !! k = Some v → Js.get o k = Some (Js.Str v).
Proof. unfold Js.get. by intros ->. Qed.

Lemma set_lookup_eq (o : gmap string string) (k v : string) :
  k ≠ "__proto__" → Js.set o k v !! k = Some v.
Proof.
  intros Hk. unfold Js.set. apply String.eqb_neq in Hk. rewrite Hk.
  destruct (o !! k); apply lookup_insert_eq.
Qed.

Lemma set_lookup_ne (o : gmap string string) (k k' v : string) :
  k ≠ k' → Js.set o k v !! k' = o !! k'.
Proof.
  intros Hne. unfold Js.set.
  destruct (o !! k); [by rewrite lookup_insert_ne|].
  destruct (String.eqb k "__proto__"); [done | by rewrite lookup_insert_ne].
Qed.

Lemma set_proto (o : gmap string string) (v : string) :
  o !! "__proto__" = None → Js.set o "__proto__" v = o.
Proof. unfold Js.set. by intros ->. Qed.

Lemma set_keeps (o : gmap string string) (k k' v : string) :
  is_Some (o !! k') → is_Some (Js.set o k v !! k').
Proof.
  intros Hsome. destruct (decide (k = k')) as [->|Hne].
  - unfold Js.set. destruct Hsome as [x ->]. rewrite lookup_insert_eq. by eexists.
  - by rewrite set_lookup_ne.
Qed.

(** C2, as stated, fails: the asset ["static/logo.3f2a.png"] is a key of
    the side map, and the one entry made of it has [isAsset = true] next
    to [isModuleAsset = true]; no entry of the list has [isAsset = false]. *)
Lemma module_asset_is_asset :
  Plugin.moduleAssets plugin_with_module_asset !! "static/logo.3f2a.png"
    = Some "static/logo.png" ∧
  classify (Plugin.options plugin_with_module_asset)
    (Plugin.moduleAssets plugin_with_module_asset) compilation_with_module_asset
    = [ {| FileEntry.path := "static/logo.3f2a.png";
           FileEntry.chunk := None;
           FileEntry.name := Js.Str "static/logo.png";
           FileEntry.isInitial := false;
           FileEntry.isChunk := false;
           FileEntry.isAsset := true;
           FileEntry.isModuleAsset := true |} ] ∧
  ¬ ∃ file,
      In file
        (classify (Plugin.options plugin_with_module_asset)
           (Plugin.moduleAssets plugin_with_module_asset)
           compilation_with_module_asset) ∧
      FileEntry.path file = "static/logo.3f2a.png" ∧
      FileEntry.name file = Js.Str "static/logo.png" ∧
      FileEntry.isModuleAsset file = true ∧
      FileEntry.isAsset file = false.
Proof.
  assert (classify (Plugin.options plugin_with_module_asset)
    (Plugin.moduleAssets plugin_with_module_asset) compilation_with_module_asset
    = [ FileEntry.raw
          (module_asset_entry
             {| Asset.name := "static/logo.3f2a.png"; Asset.chunks := [] |}
             "static/logo.png") ]) as E by (vm_compute; reflexivity).
  split; [by vm_compute|]. split; [exact E|].
  rewrite E. intros (file & [<-|[]] & _ & _ & _ & Hasset). discriminate.
Qed.

Lemma moduleAsset_lookup `{Runtime} (p : Plugin.t) (userRequest file : string) :
  file ≠ "__proto__" →
  Plugin.moduleAssets (moduleAsset p userRequest file) !! file =
  Some (path_join (path_dirname file) (path_basename userRequest)).
Proof. intros Hfile. unfold moduleAsset. simpl. by apply set_lookup_eq. Qed.

(** C2, amended: an emitted asset whose path the side map gives a
    (non-empty) logical name yields an entry with that name, with
    [isModuleAsset = true] and [isAsset = true], and with [isChunk = false].
    Every entry of the classifier is either a chunk file ([isChunk] alone)
    or an asset ([isAsset], not [isChunk]); a module asset is an asset with
    the further flag [isModuleAsset]. *)
Theorem classify_module_asset :
  (∀ options moduleAssets c asset n,
     In asset (Compilation.statsAssets c) →
     moduleAssets !! Asset.name asset = Some n →
     n ≠ "" →
     In (FileEntry.raw (module_asset_entry asset n))
        (classify options moduleAssets c)) ∧
  (∀ options moduleAssets c file,
     In file (classify options moduleAssets c) →
     (FileEntry.isChunk file = true ∧ FileEntry.isAsset file = false ∧
      FileEntry.isModuleAsset file = false) ∨
     (FileEntry.isChunk file = false ∧ FileEntry.isAsset file = true)).
Proof.
  split.
  - intros options moduleAssets c asset n Hin Hn Hne.
    rewrite classify_flat. apply in_or_app. right.
    apply in_flat_map. exists asset. split; [done|].
    unfold asset_step. rewrite (get_own _ _ _ Hn). simpl.
    destruct n; [done|]. simpl. by left.
  - intros options moduleAssets c file.
    rewrite classify_flat. intros [Hin|Hin]%in_app_or.
    + apply in_map_iff in Hin as (named & <- & Hin).
      apply in_flat_map in Hin as (chunk & _ & Hin).
      apply in_map_iff in Hin as (path & <- & _). by left.
    + apply in_flat_map in Hin as (asset & _ & Hin).
      unfold asset_step in Hin.
      assert (In file
                (if 0 <? Z.of_nat (length (Asset.chunks asset)) then []
                 else [ {| FileEntry.path := Asset.name asset;
                           FileEntry.chunk := None;
                           FileEntry.name := Js.Str (Asset.name asset);
                           FileEntry.isInitial := false;
                           FileEntry.isChunk := false;
                           FileEntry.isAsset := true;
                           FileEntry.isModuleAsset := false |} ]) →
              (FileEntry.isChunk file = true ∧ FileEntry.isAsset file = false ∧
               FileEntry.isModuleAsset file = false) ∨
              (FileEntry.isChunk file = false ∧ FileEntry.isAsset file = true))
        as Hplain.
      { destruct (0 <? Z.of_nat (length (Asset.chunks asset))); [done|].
        intros [<-|[]]. by right. }
      destruct (Js.get moduleAssets (Asset.name asset)) as [v|]; [|by apply Hplain].
      destruct (truthy_value v); [|by apply Hplain].
      destruct Hin as [<-|[]]. by right.
Qed.

Lemma classify_module_asset_witness :
  In (FileEntry.raw
        (module_asset_entry
           {| Asset.name := "static/logo.3f2a.png"; Asset.chunks := [] |}
           "static/logo.png"))
     (classify (Plugin.options plugin_with_module_asset)
        (Plugin.moduleAssets plugin_with_module_asset)
        compilation_with_module_asset).
Proof.
  apply (proj1 classify_module_asset).
  - simpl. by left.
  - by vm_compute.
  - done.
Defined.

(** ** The manifest *)

Lemma set_lookup_own (o : gmap string string) (k v : string) :
  is_Some (o !! k) → Js.set o k v !! k = Some v.
Proof. intros [x Hx]. unfold Js.set. rewrite Hx. apply lookup_insert_eq. Qed.

Lemma fold_manifest_snoc (seed : gmap string string) (files : list FileEntry.t)
  (file : FileEntry.t) :
  fold_manifest seed (files ++ [file]) =
  Js.set (fold_manifest seed files) (FileEntry.name file) (FileEntry.path file).
Proof. unfold fold_manifest. by rewrite fold_left_app. Qed.

Lemma fold_manifest_keeps (seed : gmap string string) (files : list FileEntry.t)
  (k : string) :
  is_Some (seed !! k) → is_Some (fold_manifest seed files !! k).
Proof.
  intros Hseed. induction files as [|file files IH] using rev_ind; [done|].
  rewrite fold_manifest_snoc. by apply set_keeps.
Qed.

(** A key other than ['__proto__'], or one the seed owns, holds the path of
    the last file of its name. *)
Lemma fold_manifest_lookup (seed : gmap string string) (files : list FileEntry.t)
  (k : string) :
  k ≠ "__proto__" ∨ is_Some (seed !! k) →
  fold_manifest seed files !! k =
  match last_named k files with
  | Some file => Some (FileEntry.path file)
  | None => seed !! k
  end.
Proof.
  intros Hk. induction files as [|file files IH] using rev_ind; [done|].
  rewrite fold_manifest_snoc. unfold last_named. rewrite rev_unit. simpl.
  destruct (String.eqb (FileEntry.name file) k) eqn:E.
  - apply String.eqb_eq in E as ->.
    destruct Hk as [Hk | Hk]; [by apply set_lookup_eq|].
    apply set_lookup_own. by apply fold_manifest_keeps.
  - apply String.eqb_neq in E. by rewrite set_lookup_ne.
Qed.

(** The key ['__proto__'] is never added. *)
Lemma fold_manifest_proto (seed : gmap string string) (files : list FileEntry.t) :
  seed !! "__proto__" = None → fold_manifest seed files !! "__proto__" = None.
Proof.
  intros Hseed. induction files as [|file files IH] using rev_ind; [done|].
  rewrite fold_manifest_snoc.
  destruct (decide (FileEntry.name file = "__proto__")) as [-> | Hne].
  - by rewrite set_proto.
  - by rewrite set_lookup_ne.
Qed.

Lemma last_named_last (k : string) (before after : list FileEntry.t)
  (file : FileEntry.t) :
  FileEntry.name file = k →
  Forall (fun other => FileEntry.name other ≠ k) after →
  last_named k (before ++ file :: after) = Some file.
Proof.
  intros Hk Hafter. unfold last_named.
  rewrite rev_app_distr. simpl. rewrite <- app_assoc. simpl.
  induction after as [|other after IH] using rev_ind.
  - simpl. by rewrite Hk, String.eqb_refl.
  - apply Forall_app in Hafter as [Hafter Hne].
    apply Forall_inv in Hne. apply String.eqb_neq in Hne.
    rewrite rev_unit. simpl. rewrite Hne. by apply IH.
Qed.

(** C4, on the input where the code departs from it: a chunk without a
    name lists the files ['__proto__'] and ['app.js']. Both reach the
    manifest builder, named as their paths, but the assignment
    [manifest['__proto__'] = '__proto__'] on the plain seed object adds no
    key: the manifest holds ['app.js'] only, where the claim has the key
    ['__proto__'] hold the path of the last file of that name. *)
Lemma proto_file_not_in_manifest :
  @emit_files plain_runtime dist_plugin compilation_with_proto_file
    (emit_counts dist_plugin (beforeRun dist_plugin fresh_world))
    = Some [proto_file_entry; app_js_entry] ∧
  FileEntry.name proto_file_entry = "__proto__" ∧
  FileEntry.path proto_file_entry = "__proto__" ∧
  @emit_manifest plain_runtime dist_plugin compilation_with_proto_file
    (beforeRun dist_plugin fresh_world)
    = Some {[ "app.js" := "app.js" ]} ∧
  build_manifest (@defaults plain_runtime) [proto_file_entry; app_js_entry]
    !! "__proto__" = None.
Proof.
  split; [vm_compute; reflexivity|]. split; [reflexivity|]. split; [reflexivity|].
  split; vm_compute; reflexivity.
Qed.

(** X17: without a generator, a key of the manifest other than
    ['__proto__'] (or any key the seed owns) holds the path of the last file
    of the final list that has it as name, and what the seed gave it when no
    file has; the seed is the empty mapping when the option is unset. The
    key ['__proto__'], unless the seed owns it, is never added: the
    assignment goes to the setter of the prototype. *)
Theorem build_manifest_default (options : Options.t) (files : list FileEntry.t) :
  Options.generate options = None →
  let seed := default ∅ (Options.seed options) in
  (∀ k,
     k ≠ "__proto__" ∨ is_Some (seed !! k) →
     build_manifest options files !! k =
     match last_named k files with
     | Some file => Some (FileEntry.path file)
     | None => seed !! k
     end) ∧
  (∀ before file after,
     files = before ++ file :: after →
     Forall (fun other => FileEntry.name other ≠ FileEntry.name file) after →
     FileEntry.name file ≠ "__proto__" →
     build_manifest options files !! FileEntry.name file = Some (FileEntry.path file)) ∧
  (seed !! "__proto__" = None →
   build_manifest options files !! "__proto__" = None).
Proof.
  intros Hgen seed. unfold build_manifest. rewrite Hgen. fold seed.
  split; [|split].
  - intros k Hk. by apply fold_manifest_lookup.
  - intros before file after -> Hafter Hname.
    rewrite fold_manifest_lookup by by left.
    by rewrite (last_named_last _ _ _ file).
  - apply fold_manifest_proto.
Qed.

Lemma build_manifest_default_witness :
  build_manifest (@defaults plain_runtime) two_app_js !! "app.js" = Some "app.2.js".
Proof.
  pose proof (build_manifest_default (@defaults plain_runtime) two_app_js eq_refl)
    as (H & _ & _).
  etransitivity; [apply (H "app.js"); left; discriminate|].
  vm_compute. reflexivity.
Defined.

(** ** The whole chain on the defaults *)

Lemma named_raw (file : FileEntry.t) : FileEntry.named (FileEntry.raw file) = Some file.
Proof. by destruct file. Qed.

Lemma named_entries_raw (files : list FileEntry.t) :
  named_entries (List.map FileEntry.raw files) = Some files.
Proof.
  induction files as [|file files IH]; [done|].
  cbn [List.map named_entries]. by rewrite named_raw, IH.
Qed.

(** Without module assets and without names of the prototype, the assets
    that yield an entry are those of no chunk. *)
Lemma assets_without_modules (c : Compilation.t) :
  listing_named ∅ c = true →
  flat_map (asset_step ∅ []) (Compilation.statsAssets c) =
  List.map FileEntry.raw
    (List.map plain_asset_entry (List.filter in_no_chunk (Compilation.statsAssets c))).
Proof.
  unfold listing_named.
  induction (Compilation.statsAssets c) as [|asset assets IH]; simpl; [done|].
  unfold asset_named at 1. rewrite lookup_empty. intros [Hname Hrest]%andb_true_iff.
  apply negb_true_iff in Hname.
  assert (in_no_chunk asset = negb (0 <? Z.of_nat (length (Asset.chunks asset)))) as ->.
  { unfold in_no_chunk. by destruct (Asset.chunks asset). }
  rewrite (IH Hrest). unfold asset_step, Js.get. rewrite lookup_empty, Hname.
  by destruct (0 <? Z.of_nat (length (Asset.chunks asset))).
Qed.

(** C6: with the default options and the engine's public path unset, one
    chunk named ['main'] of files ['main.js'] and ['main.js.map'] and one
    asset ['favicon.ico'] of no chunk give the manifest that maps each of
    the three names to itself; none of the three is the output path of a
    tracked manifest, and no asset of the listing is called as a member of
    [Object.prototype]. *)
Theorem end_to_end_defaults (R : Runtime) (outputFolder : string)
  (main : Chunk.t) (c : Compilation.t) (w : World.t) :
  let p := apply defaults outputFolder in
  Chunk.name main = Some "main" →
  Chunk.files main = ["main.js"; "main.js.map"] →
  Compilation.chunks c = [main] →
  List.filter in_no_chunk (Compilation.statsAssets c) =
    [ {| Asset.name := "favicon.ico"; Asset.chunks := [] |} ] →
  listing_named ∅ c = true →
  (Compilation.publicPath c = None ∨ Compilation.publicPath c = Some "") →
  (∀ n, In n ["main.js"; "main.js.map"; "favicon.ico"] →
        emit_counts p w !! path_join outputFolder n = None) →
  emit_manifest p c w =
    Some {[ "main.js" := "main.js";
            "main.js.map" := "main.js.map";
            "favicon.ico" := "favicon.ico" ]}.
Proof.
  intros p Hname Hfiles Hchunks Hassets Hnamed Hpublic Hfree.
  assert (classify defaults ∅ c =
    List.map FileEntry.raw
      [ chunk_file_entry defaults main "main.js";
        chunk_file_entry defaults main "main.js.map";
        plain_asset_entry {| Asset.name := "favicon.ico"; Asset.chunks := [] |} ])
    as Hclassify.
  { rewrite classify_flat, Hchunks, (assets_without_modules c Hnamed), Hassets.
    simpl. unfold entries_of_chunk. by rewrite Hfiles. }
  assert (FileEntry.name (chunk_file_entry defaults main "main.js") = "main.js")
    as Hn1 by (unfold chunk_file_entry; by rewrite Hname).
  assert (FileEntry.name (chunk_file_entry defaults main "main.js.map") = "main.js.map")
    as Hn2 by (unfold chunk_file_entry; by rewrite Hname).
  assert (effective_publicPath defaults c = Compilation.publicPath c) as Heff by done.
  unfold emit_manifest, emit_files, first_filter.
  change (Plugin.options p) with (@defaults R).
  change (Plugin.moduleAssets p) with (∅ : gmap string string).
  change (Plugin.outputFolder p) with outputFolder.
  rewrite Hclassify, named_entries_raw. unfold later_stages. rewrite Heff.
  unfold noise_filter. cbn [List.filter].
  rewrite Hn1, Hn2. cbn [plain_asset_entry FileEntry.name Asset.name].
  rewrite !Hfree by (simpl; tauto).
  assert (prefix_publicPath (Compilation.publicPath c) = fun files => files) as ->.
  { by destruct Hpublic as [-> | ->]. }
  unfold chunk_file_entry. rewrite Hname.
  reflexivity.
Qed.

Lemma end_to_end_defaults_witness :
  @emit_manifest plain_runtime dist_plugin main_compilation
    (beforeRun dist_plugin fresh_world) =
  Some {[ "main.js" := "main.js";
          "main.js.map" := "main.js.map";
          "favicon.ico" := "favicon.ico" ]}.
Proof.
  apply (end_to_end_defaults plain_runtime "/dist" main_chunk main_compilation
           (beforeRun dist_plugin fresh_world)).
  - reflexivity.
  - reflexivity.
  - reflexivity.
  - reflexivity.
  - reflexivity.
  - right. reflexivity.
  - intros n [<-|[<-|[<-|[]]]]; vm_compute; reflexivity.
Defined.

(** ** Lists of string names *)

Lemma named_entries_app (a b : list (FileEntry.entry Js.value)) :
  named_entries (a ++ b) =
  match named_entries a, named_entries b with
  | Some x, Some y => Some (x ++ y)
  | _, _ => None
  end.
Proof.
  induction a as [|file a IH]; simpl.
  - by destruct (named_entries b).
  - rewrite IH. destruct (FileEntry.named file); [|done].
    by destruct (named_entries a), (named_entries b).
Qed.

Lemma asset_step_named (moduleAssets : gmap string string) (asset : Asset.t) :
  if asset_named moduleAssets asset
  then is_Some (named_entries (asset_step moduleAssets [] asset))
  else named_entries (asset_step moduleAssets [] asset) = None.
Proof.
  unfold asset_named, asset_step, Js.get.
  destruct (moduleAssets !! Asset.name asset) as [n|]; simpl.
  - destruct (truthy n); [by eexists|].
    destruct (0 <? Z.of_nat (length (Asset.chunks asset))); by eexists.
  - destruct (Js.inherited (Asset.name asset)); simpl; [done|].
    destruct (0 <? Z.of_nat (length (Asset.chunks asset))); by eexists.
Qed.

Lemma flat_asset_step_named (moduleAssets : gmap string string) (assets : list Asset.t) :
  if forallb (asset_named moduleAssets) assets
  then is_Some (named_entries (flat_map (asset_step moduleAssets []) assets))
  else named_entries (flat_map (asset_step moduleAssets []) assets) = None.
Proof.
  induction assets as [|asset assets IH]; [by eexists|].
  cbn [flat_map forallb]. rewrite named_entries_app.
  pose proof (asset_step_named moduleAssets asset) as Hstep.
  destruct (asset_named moduleAssets asset); cbn [andb].
  - destruct Hstep as [x ->].
    destruct (forallb (asset_named moduleAssets) assets).
    + destruct IH as [y ->]. by eexists.
    + by rewrite IH.
  - by rewrite Hstep.
Qed.

(** The classified list has string names throughout exactly when no asset
    of the listing takes its name from [Object.prototype]. *)
Lemma classify_named (options : Options.t) (moduleAssets : gmap string string)
  (c : Compilation.t) :
  (listing_named moduleAssets c = true →
   is_Some (named_entries (classify options moduleAssets c))) ∧
  (listing_named moduleAssets c = false →
   named_entries (classify options moduleAssets c) = None).
Proof.
  rewrite classify_flat, named_entries_app, named_entries_raw.
  unfold listing_named.
  pose proof (flat_asset_step_named moduleAssets (Compilation.statsAssets c)) as Hflat.
  destruct (forallb (asset_named moduleAssets) (Compilation.statsAssets c)).
  - destruct Hflat as [y ->]. split; [by eexists | done].
  - rewrite Hflat. by split.
Qed.

Lemma emit_files_named `{Runtime} (p : Plugin.t) (c : Compilation.t)
  (counts : gmap string Js.num) :
  (listing_named (Plugin.moduleAssets p) c = true → is_Some (emit_files p c counts)) ∧
  (listing_named (Plugin.moduleAssets p) c = false → emit_files p c counts = None).
Proof.
  unfold emit_files, first_filter.
  destruct (classify_named (Plugin.options p) (Plugin.moduleAssets p) c) as [Ht Hf].
  split.
  - intros Hn. destruct (Ht Hn) as [files ->]. by eexists.
  - intros Hn. by rewrite (Hf Hn).
Qed.

Lemma emit_manifest_named `{Runtime} (p : Plugin.t) (c : Compilation.t) (w : World.t) :
  (listing_named (Plugin.moduleAssets p) c = true → is_Some (emit_manifest p c w)) ∧
  (listing_named (Plugin.moduleAssets p) c = false → emit_manifest p c w = None).
Proof.
  unfold emit_manifest.
  destruct (emit_files_named p c (emit_counts p w)) as [Ht Hf]. split.
  - intros Hn. destruct (Ht Hn) as [files ->]. by eexists.
  - intros Hn. by rewrite (Hf Hn).
Qed.

(** ** The emit counter *)

Lemma is_zero_iff (a : Js.num) : Js.is_zero a = true ↔ a = Js.Num 0.
Proof.
  destruct a as [z|]; simpl; [|done].
  rewrite Z.eqb_eq. split; [by intros -> | by intros [= ->]].
Qed.

Lemma beforeRun_counter (p : Plugin.t) (w : World.t) :
  counter p (beforeRun p w) = Some (Js.add (Js.or_zero (counter p w)) 1).
Proof. unfold counter, beforeRun. simpl. apply lookup_insert_eq. Qed.

Lemma writes_app (t1 t2 : list event) : writes (t1 ++ t2) = writes t1 ++ writes t2.
Proof. apply List.filter_app. Qed.

(** What [emit] leaves in [emitCountMap], whatever else it does. *)
Lemma emit_counts_after `{Runtime} (p : Plugin.t) (c : Compilation.t) (w : World.t) :
  World.emitCountMap (EmitState.world (state_of (emit p c w))) = emit_counts p w.
Proof.
  unfold emit, emit_rest. destruct (emit_files p c (emit_counts p w)); [|done].
  destruct (Js.is_zero (emit_count p w)); [|done].
  destruct (Options.writeToFileEmit (Plugin.options p)); [|done].
  by destruct (Fs.outputFileSync _ _ _).
Qed.

Lemma emit_counter_after `{Runtime} (p : Plugin.t) (c : Compilation.t) (w : World.t) :
  counter p (EmitState.world (state_of (emit p c w))) = Some (emit_count p w).
Proof. unfold counter. rewrite emit_counts_after. apply emit_counts_own. Qed.

Lemma emit_plugin_after `{Runtime} (p : Plugin.t) (c : Compilation.t) (w : World.t) :
  EmitState.plugin (state_of (emit p c w)) =
  match emit_manifest p c w with
  | Some manifest => set_options p (seed_after (Plugin.options p) manifest)
  | None => p
  end.
Proof.
  unfold emit, emit_manifest, emit_rest.
  destruct (emit_files p c (emit_counts p w)); [|done].
  destruct (Js.is_zero (emit_count p w)); [|done].
  destruct (Options.writeToFileEmit (Plugin.options p)); [|done].
  by destruct (Fs.outputFileSync _ _ _).
Qed.

(** The first filter threw: the counter is stored and nothing else is
    done. *)
Lemma emit_throws_early `{Runtime} (p : Plugin.t) (c : Compilation.t) (w : World.t) :
  emit_manifest p c w = None →
  emit p c w =
  Throw
    {| EmitState.plugin := p;
       EmitState.compilation := c;
       EmitState.world :=
         {| World.emitCountMap := emit_counts p w;
            World.disk := World.disk w;
            World.trace := World.trace w |} |}.
Proof.
  unfold emit, emit_manifest.
  by destruct (emit_files p c (emit_counts p w)).
Qed.

(** Not the last cycle: nothing is written; the manifest is announced. *)
Lemma emit_skips `{Runtime} (p : Plugin.t) (c : Compilation.t) (w : World.t)
  (manifest : gmap string string) :
  Js.is_zero (emit_count p w) = false →
  emit_manifest p c w = Some manifest →
  emit p c w =
  Normal
    {| EmitState.plugin := set_options p (seed_after (Plugin.options p) manifest);
       EmitState.compilation := c;
       EmitState.world :=
         {| World.emitCountMap := emit_counts p w;
            World.disk := World.disk w;
            World.trace := World.trace w ++ [AfterEmit manifest] |} |}.
Proof.
  intros Hz. unfold emit, emit_manifest, emit_rest.
  destruct (emit_files p c (emit_counts p w)); [|done].
  intros [= <-]. by rewrite Hz.
Qed.

(** An emit that stores a counter other than 0 writes nothing, whether it
    returns or throws. *)
Lemma emit_no_write `{Runtime} (p : Plugin.t) (c : Compilation.t) (w : World.t) :
  Js.is_zero (emit_count p w) = false →
  let s := state_of (emit p c w) in
  Plugin.outputFile (EmitState.plugin s) = Plugin.outputFile p ∧
  EmitState.compilation s = c ∧
  World.disk (EmitState.world s) = World.disk w ∧
  writes (World.trace (EmitState.world s)) = writes (World.trace w).
Proof.
  intros Hz s. subst s.
  destruct (emit_manifest p c w) as [manifest|] eqn:Hm.
  - rewrite (emit_skips p c w manifest Hz Hm). simpl.
    rewrite writes_app. simpl. by rewrite app_nil_r.
  - by rewrite (emit_throws_early p c w Hm).
Qed.

(** The last cycle: the manifest goes into the assets, and onto the disk
    when [writeToFileEmit] is set and the disk takes it. *)
Lemma emit_writes `{Runtime} (p : Plugin.t) (c : Compilation.t) (w : World.t)
  (manifest : gmap string string) :
  Js.is_zero (emit_count p w) = true →
  emit_manifest p c w = Some manifest →
  let s := state_of (emit p c w) in
  let output := Options.serialize (Plugin.options p) manifest in
  EmitState.compilation s = Compilation.set_asset c (Plugin.outputName p) output ∧
  writes (World.trace (EmitState.world s)) =
    writes (World.trace w) ++
    AssetSet (Plugin.outputName p) output ::
    (if Options.writeToFileEmit (Plugin.options p)
     then if decide (Plugin.outputFile p ∈ Fs.failing (World.disk w))
          then []
          else [FileWritten (Plugin.outputFile p) output]
     else []) ∧
  (Options.writeToFileEmit (Plugin.options p) = false →
   threw (emit p c w) = false ∧ World.disk (EmitState.world s) = World.disk w) ∧
  (Options.writeToFileEmit (Plugin.options p) = true →
   Plugin.outputFile p ∉ Fs.failing (World.disk w) →
   threw (emit p c w) = false ∧
   Fs.files (World.disk (EmitState.world s)) =
     <[Plugin.outputFile p := output]> (Fs.files (World.disk w))) ∧
  (Options.writeToFileEmit (Plugin.options p) = true →
   Plugin.outputFile p ∈ Fs.failing (World.disk w) →
   threw (emit p c w) = true ∧ World.disk (EmitState.world s) = World.disk w).
Proof.
  intros Hz Hm s output. subst s output. revert Hm.
  unfold emit, emit_manifest, emit_rest.
  destruct (emit_files p c (emit_counts p w)); [|done].
  intros [= <-]. rewrite Hz.
  destruct (Options.writeToFileEmit (Plugin.options p)).
  - unfold Fs.outputFileSync.
    destruct (decide (Plugin.outputFile p ∈ Fs.failing (World.disk w))); simpl;
      rewrite ?writes_app; simpl; rewrite <- ?app_assoc; repeat split; try done.
  - simpl. rewrite !writes_app. simpl. rewrite app_nil_r. repeat split; done.
Qed.

Lemma set_asset_lookup (c : Compilation.t) (k v : string) :
  k ≠ "__proto__" → Compilation.assets (Compilation.set_asset c k v) !! k = Some v.
Proof. intros Hk. simpl. by apply set_lookup_eq. Qed.

Lemma counter_after_two_starts (p : Plugin.t) (w : World.t) :
  counter p w = None ∨ counter p w = Some (Js.Num 0) →
  counter p (beforeRun p (beforeRun p w)) = Some (Js.Num 2).
Proof.
  intros Hstart. rewrite !beforeRun_counter.
  by destruct Hstart as [-> | ->].
Qed.

Lemma emit_count_of_counter (p : Plugin.t) (w : World.t) (n : Z) :
  counter p w = Some (Js.Num n) → emit_count p w = Js.Num (n - 1).
Proof. unfold counter, emit_count. by intros ->. Qed.

Lemma not_zero_counter `{Runtime} (p : Plugin.t) (c : Compilation.t) (w : World.t) :
  counter p (EmitState.world (state_of (emit p c w))) ≠ Some (Js.Num 0) →
  Js.is_zero (emit_count p w) = false.
Proof.
  rewrite emit_counter_after. intros Hne.
  destruct (Js.is_zero (emit_count p w)) eqn:E; [|done].
  apply is_zero_iff in E. congruence.
Qed.

(** C1, on the input where the code departs from it: the listing holds an
    asset called ['constructor']. A cycle has started (the counter is 1), so
    this [emit] stores 0 and is the one to write; but the read
    [moduleAssets['constructor']] finds the constructor of plain objects,
    the entry gets that function as name, and [path.join] throws on it in
    the first filter: [emit] throws with the counter 0 stored, the assets of
    the compilation and the disk as they were, nothing written and no
    notification sent. *)
Lemma emit_throws_on_prototype_name :
  counter dist_plugin (beforeRun dist_plugin fresh_world) = Some (Js.Num 1) ∧
  In (module_asset_of {| Asset.name := "constructor"; Asset.chunks := [0] |}
        (Js.Inherited "constructor"))
     (classify (Plugin.options dist_plugin) (Plugin.moduleAssets dist_plugin)
        compilation_with_constructor_asset) ∧
  threw (@emit plain_runtime dist_plugin compilation_with_constructor_asset
           (beforeRun dist_plugin fresh_world))
    = true ∧
  counter dist_plugin
    (EmitState.world
       (state_of (@emit plain_runtime dist_plugin compilation_with_constructor_asset
                    (beforeRun dist_plugin fresh_world))))
    = Some (Js.Num 0) ∧
  Compilation.assets
    (EmitState.compilation
       (state_of (@emit plain_runtime dist_plugin compilation_with_constructor_asset
                    (beforeRun dist_plugin fresh_world))))
    !! Plugin.outputName dist_plugin = None ∧
  World.disk
    (EmitState.world
       (state_of (@emit plain_runtime dist_plugin compilation_with_constructor_asset
                    (beforeRun dist_plugin fresh_world))))
    = World.disk fresh_world ∧
  World.trace
    (EmitState.world
       (state_of (@emit plain_runtime dist_plugin compilation_with_constructor_asset
                    (beforeRun dist_plugin fresh_world))))
    = [].
Proof.
  assert (@emit_manifest plain_runtime dist_plugin compilation_with_constructor_asset
            (beforeRun dist_plugin fresh_world) = None) as Hm
    by (vm_compute; reflexivity).
  rewrite (emit_throws_early _ _ _ Hm).
  split; [vm_compute; reflexivity|]. split; [vm_compute; tauto|].
  split; [reflexivity|]. split; [vm_compute; reflexivity|].
  split; [vm_compute; reflexivity|]. by split.
Qed.

(** C8, on the input where the code departs from it: an [emit] with no
    cycle started, on no counter and on the counter 0, for a listing that
    holds an asset called ['constructor']. The counter becomes [NaN], or -1,
    and then [emit] throws in its first filter, on the function that the
    entry of that asset has as name. *)
Lemma emit_without_start_throws :
  counter dist_plugin fresh_world = None ∧
  threw (@emit plain_runtime dist_plugin compilation_with_constructor_asset fresh_world)
    = true ∧
  counter dist_plugin
    (EmitState.world
       (state_of (@emit plain_runtime dist_plugin compilation_with_constructor_asset
                    fresh_world)))
    = Some Js.NaN ∧
  counter dist_plugin world_after_one_cycle = Some (Js.Num 0) ∧
  threw (@emit plain_runtime dist_plugin compilation_with_constructor_asset
           world_after_one_cycle)
    = true ∧
  counter dist_plugin
    (EmitState.world
       (state_of (@emit plain_runtime dist_plugin compilation_with_constructor_asset
                    world_after_one_cycle)))
    = Some (Js.Num (-1)).
Proof.
  assert (@emit_manifest plain_runtime dist_plugin compilation_with_constructor_asset
            fresh_world = None) as Hm1 by (vm_compute; reflexivity).
  assert (@emit_manifest plain_runtime dist_plugin compilation_with_constructor_asset
            world_after_one_cycle = None) as Hm2 by (vm_compute; reflexivity).
  rewrite (emit_throws_early _ _ _ Hm1), (emit_throws_early _ _ _ Hm2).
  split; [reflexivity|]. split; [reflexivity|]. split; [vm_compute; reflexivity|].
  split; [vm_compute; reflexivity|]. split; [reflexivity|]. vm_compute; reflexivity.
Qed.

(** * Further properties of the plugin *)

(** ** The counter protocol *)

Lemma emit_plugin_keeps `{Runtime} (p : Plugin.t) (c : Compilation.t) (w : World.t) :
  let p' := EmitState.plugin (state_of (emit p c w)) in
  Plugin.outputFolder p' = Plugin.outputFolder p ∧
  Plugin.outputFile p' = Plugin.outputFile p ∧
  Plugin.outputName p' = Plugin.outputName p ∧
  Plugin.moduleAssets p' = Plugin.moduleAssets p ∧
  Options.writeToFileEmit (Plugin.options p') = Options.writeToFileEmit (Plugin.options p).
Proof.
  intros p'. subst p'. rewrite emit_plugin_after.
  destruct (emit_manifest p c w); [|done]. simpl. repeat split.
  unfold seed_after.
  by destruct (Options.generate (Plugin.options p)), (Options.seed (Plugin.options p)).
Qed.

Lemma counter_same_file (p p' : Plugin.t) (w : World.t) :
  Plugin.outputFile p' = Plugin.outputFile p → counter p' w = counter p w.
Proof. unfold counter. by intros ->. Qed.

(** X15: [beforeRun] adds one to the counter of the instance's output file
    (an absent counter counts as 0) and [emit] takes one off; both leave the
    counters of other files alone. When no asset of the listing takes its
    name from [Object.prototype], [emit] computes a manifest, and it puts the
    serialized manifest into the assets of the compilation, and writes it to
    disk when [writeToFileEmit] is set, exactly when the counter it stored
    is 0. With such an asset, [emit] throws after storing the counter and
    does nothing else. After two [beforeRun] and two [emit] for one output
    file, starting from no cycle in flight, the first [emit] has written
    nothing, the second has written once, and the counter is 0. *)
Theorem emit_counter_protocol :
  (∀ p w,
     (∀ n, counter p w = Some (Js.Num n) →
           counter p (beforeRun p w) = Some (Js.Num (n + 1))) ∧
     (counter p w = None → counter p (beforeRun p w) = Some (Js.Num 1)) ∧
     (∀ file, file ≠ Plugin.outputFile p →
              World.emitCountMap (beforeRun p w) !! file = World.emitCountMap w !! file) ∧
     World.disk (beforeRun p w) = World.disk w ∧
     World.trace (beforeRun p w) = World.trace w) ∧
  (∀ (R : Runtime) p c w,
     (∀ n, counter p w = Some (Js.Num n) →
           counter p (EmitState.world (state_of (emit p c w))) = Some (Js.Num (n - 1))) ∧
     (∀ file, file ≠ Plugin.outputFile p →
              World.emitCountMap (EmitState.world (state_of (emit p c w))) !! file =
              World.emitCountMap w !! file)) ∧
  (∀ (R : Runtime) p c w,
     let s := state_of (emit p c w) in
     (listing_named (Plugin.moduleAssets p) c = true → is_Some (emit_manifest p c w)) ∧
     (∀ manifest,
        emit_manifest p c w = Some manifest →
        counter p (EmitState.world s) = Some (Js.Num 0) →
        let output := Options.serialize (Plugin.options p) manifest in
        EmitState.compilation s = Compilation.set_asset c (Plugin.outputName p) output ∧
        (Plugin.outputName p ≠ "__proto__" →
         Compilation.assets (EmitState.compilation s) !! Plugin.outputName p =
           Some output) ∧
        writes (World.trace (EmitState.world s)) =
          writes (World.trace w) ++
          AssetSet (Plugin.outputName p) output ::
          (if Options.writeToFileEmit (Plugin.options p)
           then if decide (Plugin.outputFile p ∈ Fs.failing (World.disk w))
                then []
                else [FileWritten (Plugin.outputFile p) output]
           else []) ∧
        (Options.writeToFileEmit (Plugin.options p) = false →
         threw (emit p c w) = false ∧ World.disk (EmitState.world s) = World.disk w) ∧
        (Options.writeToFileEmit (Plugin.options p) = true →
         Plugin.outputFile p ∉ Fs.failing (World.disk w) →
         threw (emit p c w) = false ∧
         Fs.files (World.disk (EmitState.world s)) =
           <[Plugin.outputFile p := output]> (Fs.files (World.disk w)))) ∧
     (counter p (EmitState.world s) ≠ Some (Js.Num 0) →
      EmitState.compilation s = c ∧
      World.disk (EmitState.world s) = World.disk w ∧
      writes (World.trace (EmitState.world s)) = writes (World.trace w) ∧
      (listing_named (Plugin.moduleAssets p) c = true → threw (emit p c w) = false)) ∧
     (listing_named (Plugin.moduleAssets p) c = false →
      threw (emit p c w) = true ∧
      EmitState.compilation s = c ∧
      World.disk (EmitState.world s) = World.disk w ∧
      World.trace (EmitState.world s) = World.trace w)) ∧
  (∀ (R : Runtime) p c1 c2 w,
     counter p w = None ∨ counter p w = Some (Js.Num 0) →
     listing_named (Plugin.moduleAssets p) c2 = true →
     let w2 := beforeRun p (beforeRun p w) in
     let s1 := state_of (emit p c1 w2) in
     let s2 := state_of (emit (EmitState.plugin s1) c2 (EmitState.world s1)) in
     (EmitState.compilation s1 = c1 ∧
      World.disk (EmitState.world s1) = World.disk w ∧
      writes (World.trace (EmitState.world s1)) = writes (World.trace w)) ∧
     (∃ manifest2,
        emit_manifest (EmitState.plugin s1) c2 (EmitState.world s1) = Some manifest2 ∧
        EmitState.compilation s2 =
          Compilation.set_asset c2 (Plugin.outputName p)
            (Options.serialize (Plugin.options (EmitState.plugin s1)) manifest2) ∧
        writes (World.trace (EmitState.world s2)) =
          writes (World.trace w) ++
          AssetSet (Plugin.outputName p)
            (Options.serialize (Plugin.options (EmitState.plugin s1)) manifest2) ::
          (if Options.writeToFileEmit (Plugin.options p)
           then if decide (Plugin.outputFile p ∈ Fs.failing (World.disk w))
                then []
                else [FileWritten (Plugin.outputFile p)
                        (Options.serialize (Plugin.options (EmitState.plugin s1))
                           manifest2)]
           else [])) ∧
     counter p (EmitState.world s2) = Some (Js.Num 0)).
Proof.
  split; [|split; [|split]].
  - intros p w. repeat split.
    + intros n Hn. by rewrite beforeRun_counter, Hn.
    + intros Hn. by rewrite beforeRun_counter, Hn.
    + intros file Hne. unfold beforeRun. simpl. by rewrite lookup_insert_ne.
  - intros R p c w. split.
    + intros n Hn. by rewrite emit_counter_after, (emit_count_of_counter _ _ _ Hn).
    + intros file Hne. rewrite emit_counts_after. by apply emit_counts_other.
  - intros R p c w s. subst s.
    destruct (emit_manifest_named p c w) as [Hnamed Hnot].
    split; [done|]. split; [|split].
    + intros manifest Hm. rewrite emit_counter_after. intros [= Hz] output.
      apply is_zero_iff in Hz.
      destruct (emit_writes p c w manifest Hz Hm) as (Hc & Ht & Hoff & Hon & _).
      split; [done|]. split; [|done].
      intros Hname. rewrite Hc. by apply set_asset_lookup.
    + intros Hnz. apply not_zero_counter in Hnz as Hz.
      destruct (emit_no_write p c w Hz) as (_ & Hc & Hd & Hw).
      split; [done|]. split; [done|]. split; [done|].
      intros Hl. destruct (Hnamed Hl) as [manifest Hm].
      by rewrite (emit_skips p c w manifest Hz Hm).
    + intros Hl. by rewrite (emit_throws_early p c w (Hnot Hl)).
  - intros R p c1 c2 w Hstart Hl w2 s1 s2.
    assert (emit_count p w2 = Js.Num 1) as Hc1.
    { by rewrite (emit_count_of_counter p w2 2 (counter_after_two_starts p w Hstart)). }
    assert (Js.is_zero (emit_count p w2) = false) as Hz1 by by rewrite Hc1.
    destruct (emit_no_write p c1 w2 Hz1) as (_ & Hcomp1 & Hdisk1 & Hw1).
    destruct (emit_plugin_keeps p c1 w2) as (_ & Hfile & Hname & Hmods & Hflag).
    fold s1 in Hcomp1, Hdisk1, Hw1, Hfile, Hname, Hmods, Hflag.
    assert (counter (EmitState.plugin s1) (EmitState.world s1) = Some (Js.Num 1)) as Hcnt.
    { rewrite (counter_same_file p _ _ Hfile). subst s1.
      by rewrite emit_counter_after, Hc1. }
    assert (Js.is_zero (emit_count (EmitState.plugin s1) (EmitState.world s1)) = true)
      as Hz2 by by rewrite (emit_count_of_counter _ _ 1 Hcnt).
    rewrite <- Hmods in Hl.
    destruct (proj1 (emit_manifest_named (EmitState.plugin s1) c2 (EmitState.world s1)) Hl)
      as [manifest2 Hm2].
    destruct (emit_writes (EmitState.plugin s1) c2 (EmitState.world s1) manifest2 Hz2 Hm2)
      as (Hc & Ht & _).
    split; [done|]. split.
    + exists manifest2. split; [done|]. subst s2.
      rewrite Hc, Ht, Hw1, Hname, Hfile, Hflag, Hdisk1. done.
    + subst s2. rewrite <- (counter_same_file p (EmitState.plugin s1) _ Hfile).
      by rewrite emit_counter_after, (emit_count_of_counter _ _ 1 Hcnt).
Qed.

(** The scenario on a fresh process: the second [emit] alone writes. *)
Lemma emit_counter_protocol_witness :
  writes
    (World.trace
       (EmitState.world
          (state_of
             (@emit plain_runtime dist_plugin main_compilation
                (beforeRun dist_plugin (beforeRun dist_plugin fresh_world))))))
    = [] ∧
  counter dist_plugin
    (EmitState.world
       (state_of
          (@emit plain_runtime
             (EmitState.plugin
                (state_of
                   (@emit plain_runtime dist_plugin main_compilation
                      (beforeRun dist_plugin (beforeRun dist_plugin fresh_world)))))
             main_compilation
             (EmitState.world
                (state_of
                   (@emit plain_runtime dist_plugin main_compilation
                      (beforeRun dist_plugin (beforeRun dist_plugin fresh_world))))))))
    = Some (Js.Num 0).
Proof.
  pose proof (proj2 (proj2 (proj2 emit_counter_protocol)) plain_runtime
                dist_plugin main_compilation main_compilation fresh_world
                (or_introl eq_refl) eq_refl) as ((_ & _ & H1) & _ & H3).
  split; [exact H1 | exact H3].
Defined.

(** X16: an [emit] that finds a counter at or below 0, or no counter at all
    ([beforeRun] did not run), writes nothing: the compilation and the disk
    are as before. The counter it leaves is below 0, or [NaN] when there was
    none (or [NaN] already). When no asset of the listing takes its name
    from [Object.prototype] it returns normally, and the trace gains the
    after-emit notification only; otherwise it throws, and the trace gains
    nothing. *)
Theorem emit_without_start (R : Runtime) (p : Plugin.t) (c : Compilation.t)
  (w : World.t) :
  (counter p w = None ∨ counter p w = Some Js.NaN ∨
   ∃ n, counter p w = Some (Js.Num n) ∧ n ≤ 0) →
  let s := state_of (emit p c w) in
  EmitState.compilation s = c ∧
  World.disk (EmitState.world s) = World.disk w ∧
  writes (World.trace (EmitState.world s)) = writes (World.trace w) ∧
  (counter p w = None ∨ counter p w = Some Js.NaN →
   counter p (EmitState.world s) = Some Js.NaN) ∧
  (∀ n, counter p w = Some (Js.Num n) →
        counter p (EmitState.world s) = Some (Js.Num (n - 1)) ∧ n - 1 < 0) ∧
  (listing_named (Plugin.moduleAssets p) c = true →
   ∃ manifest,
     emit_manifest p c w = Some manifest ∧
     emit p c w = Normal s ∧
     World.trace (EmitState.world s) = World.trace w ++ [AfterEmit manifest]) ∧
  (listing_named (Plugin.moduleAssets p) c = false →
   emit p c w = Throw s ∧
   World.trace (EmitState.world s) = World.trace w).
Proof.
  intros Hstart s.
  assert (Js.is_zero (emit_count p w) = false) as Hz.
  { unfold emit_count. fold (counter p w).
    destruct Hstart as [-> | [-> | (n & -> & Hn)]]; simpl; [done | done |].
    apply Z.eqb_neq. lia. }
  destruct (emit_no_write p c w Hz) as (_ & Hc & Hd & Hw).
  destruct (emit_manifest_named p c w) as [Hnamed Hnot].
  subst s. repeat split; try done.
  - intros Hn. rewrite emit_counter_after.
    unfold emit_count. fold (counter p w). by destruct Hn as [-> | ->].
  - by rewrite emit_counter_after, (emit_count_of_counter _ _ _ H).
  - destruct Hstart as [Hnone | [Hnan | (m & Hm & Hle)]]; [congruence | congruence |].
    assert (n = m) by congruence. lia.
  - intros Hl. destruct (Hnamed Hl) as [manifest Hm]. exists manifest.
    by rewrite (emit_skips p c w manifest Hz Hm).
  - by rewrite (emit_throws_early p c w (Hnot H)).
  - by rewrite (emit_throws_early p c w (Hnot H)).
Qed.

(** One [emit] too many: after a completed cycle the counter is 0, and the
    next [emit] takes it to -1 without writing. *)
Lemma emit_without_start_witness :
  counter dist_plugin world_after_one_cycle = Some (Js.Num 0) ∧
  counter dist_plugin
    (EmitState.world
       (state_of (@emit plain_runtime dist_plugin main_compilation
                    world_after_one_cycle)))
    = Some (Js.Num (-1)) ∧
  World.disk
    (EmitState.world
       (state_of (@emit plain_runtime dist_plugin main_compilation
                    world_after_one_cycle)))
    = World.disk world_after_one_cycle.
Proof.
  pose proof (emit_without_start plain_runtime dist_plugin main_compilation
                world_after_one_cycle
                (or_intror (or_intror (ex_intro _ 0 (conj eq_refl (Z.le_refl 0))))))
    as (_ & Hd & _ & _ & Hn & _).
  split; [reflexivity|]. split; [|exact Hd].
  exact (proj1 (Hn 0 eq_refl)).
Defined.

(** ** The classified list *)

Lemma in_no_chunk_ltb (asset : Asset.t) :
  in_no_chunk asset = negb (0 <? Z.of_nat (length (Asset.chunks asset))).
Proof. unfold in_no_chunk. by destruct (Asset.chunks asset). Qed.

Lemma inherited_In (k : string) :
  Js.inherited k = true ↔ In k Js.prototype_keys.
Proof.
  unfold Js.inherited. rewrite existsb_exists. split.
  - by intros (k' & Hin & ->%String.eqb_eq).
  - intros Hin. exists k. split; [done | apply String.eqb_refl].
Qed.

Lemma asset_step_tagged (moduleAssets : gmap string string) (asset : Asset.t) :
  List.map (fun file => (FileEntry.path file, FileEntry.isChunk file))
    (asset_step moduleAssets [] asset) =
  if yields_entry moduleAssets asset then [(Asset.name asset, false)] else [].
Proof.
  unfold asset_step, yields_entry. rewrite in_no_chunk_ltb.
  destruct (Js.get moduleAssets (Asset.name asset)) as [v|]; simpl.
  - destruct (truthy_value v); simpl; [done|].
    by destruct (0 <? Z.of_nat (length (Asset.chunks asset))).
  - by destruct (0 <? Z.of_nat (length (Asset.chunks asset))).
Qed.

(** X1: the order of the classified list: the files of the chunks first, chunk
    by chunk and in the order each chunk lists them, then the assets in the
    order of the listing, of which only those yield an entry for which the
    read [moduleAssets[asset.name]] gives a truthy value, or that are in no
    chunk. A file of a chunk that the listing repeats as an asset of that
    chunk is therefore entered once; but an asset called as a member of
    [Object.prototype] (['toString'], say) that [moduleAssets] does not own
    always yields an entry, also when it is in a chunk. *)
Theorem classify_order (options : Options.t) (moduleAssets : gmap string string)
  (c : Compilation.t) :
  List.map (fun file => (FileEntry.path file, FileEntry.isChunk file))
    (classify options moduleAssets c) =
  List.map (fun path => (path, true)) (flat_map Chunk.files (Compilation.chunks c)) ++
  List.map (fun asset => (Asset.name asset, false))
    (List.filter (yields_entry moduleAssets) (Compilation.statsAssets c)) ∧
  (∀ asset,
     yields_entry moduleAssets asset = true ↔
     (∃ n, moduleAssets !! Asset.name asset = Some n ∧ n ≠ "") ∨
     (moduleAssets !! Asset.name asset = None ∧
      In (Asset.name asset) Js.prototype_keys) ∨
     Asset.chunks asset = []).
Proof.
  split.
  - rewrite classify_flat, List.map_app. f_equal.
    + rewrite List.map_map.
      induction (Compilation.chunks c) as [|chunk chunks IH]; [done|].
      cbn [flat_map]. rewrite !List.map_app, IH. f_equal.
      unfold entries_of_chunk. rewrite List.map_map. by apply List.map_ext.
    + induction (Compilation.statsAssets c) as [|asset assets IH]; simpl; [done|].
      rewrite List.map_app, IH, asset_step_tagged.
      by destruct (yields_entry moduleAssets asset).
  - intros asset. unfold yields_entry, Js.get. rewrite orb_true_iff.
    pose proof (inherited_In (Asset.name asset)) as Hkeys.
    assert (in_no_chunk asset = true ↔ Asset.chunks asset = []) as ->.
    { unfold in_no_chunk. by destruct (Asset.chunks asset). }
    destruct (moduleAssets !! Asset.name asset) as [n|].
    + cbn [truthy_value]. split.
      * intros [Hn | Hc]; [|by right; right].
        left. exists n. split; [done|]. by destruct n; simpl in *.
      * intros [(m & [= <-] & Hm) | [[[=] _] | Hc]]; [left; by destruct n | by right].
    + destruct (Js.inherited (Asset.name asset)) eqn:E.
      * cbn [truthy_value]. split; [intros _ | intros _; by left].
        right. left. split; [done | by apply Hkeys].
      * split.
        -- intros [[=] | Hc]. by right; right.
        -- intros [(m & [=] & _) | [[_ Hin] | Hc]]; [|by right].
           apply Hkeys in Hin. discriminate.
Qed.

(** ** The shape of a file type *)




(** ** The side map of module assets *)




(** X4: an asset announced by [moduleAsset] and then emitted is entered under
    the recorded name (a name that is not empty), as a module asset and not
    as a chunk file, whether or not it belongs to a chunk; the asset is not
    called ['__proto__']. *)
Theorem moduleAsset_then_classify (R : Runtime) (p : Plugin.t)
  (userRequest : string) (c : Compilation.t) (asset : Asset.t) :
  let p' := moduleAsset p userRequest (Asset.name asset) in
  let name := path_join (path_dirname (Asset.name asset)) (path_basename userRequest) in
  In asset (Compilation.statsAssets c) →
  name ≠ "" →
  Asset.name asset ≠ "__proto__" →
  In (FileEntry.raw
        {| FileEntry.path := Asset.name asset;
           FileEntry.chunk := None;
           FileEntry.name := name;
           FileEntry.isInitial := false;
           FileEntry.isChunk := false;
           FileEntry.isAsset := true;
           FileEntry.isModuleAsset := true |})
     (classify (Plugin.options p') (Plugin.moduleAssets p') c).
Proof.
  intros p' name Hin Hname Hproto.
  rewrite classify_flat. apply in_or_app. right.
  apply in_flat_map. exists asset. split; [done|].
  unfold asset_step. subst p'.
  rewrite (get_own _ _ _ (moduleAsset_lookup p userRequest (Asset.name asset) Hproto)).
  fold name. simpl. destruct name; [done|]. simpl. by left.
Qed.

Lemma moduleAsset_then_classify_witness :
  In (FileEntry.raw
        {| FileEntry.path := "static/logo.3f2a.png";
           FileEntry.chunk := None;
           FileEntry.name := "static/logo.png";
           FileEntry.isInitial := false;
           FileEntry.isChunk := false;
           FileEntry.isAsset := true;
           FileEntry.isModuleAsset := true |})
     (classify (Plugin.options plugin_with_module_asset)
        (Plugin.moduleAssets plugin_with_module_asset)
        compilation_with_chunk_module_asset).
Proof.
  apply (moduleAsset_then_classify plain_runtime dist_plugin
           "/project/src/logo.png" compilation_with_chunk_module_asset
           chunk_module_asset).
  - simpl. by left.
  - by vm_compute.
  - by vm_compute.
Defined.

(** ** The keys of the manifest *)

Lemma last_named_Some (k : string) (files : list FileEntry.t) (file : FileEntry.t) :
  last_named k files = Some file → In file files ∧ FileEntry.name file = k.
Proof.
  unfold last_named. intros [Hin Hk]%List.find_some.
  split; [by apply in_rev | by apply String.eqb_eq].
Qed.

Lemma last_named_None (k : string) (files : list FileEntry.t) :
  last_named k files = None → ∀ file, In file files → FileEntry.name file ≠ k.
Proof.
  unfold last_named. intros Hnone file Hin.
  apply String.eqb_neq.
  apply (List.find_none _ _ Hnone file). by apply in_rev in Hin.
Qed.

Lemma fold_manifest_keys (seed : gmap string string) (files : list FileEntry.t)
  (k : string) :
  is_Some (fold_manifest seed files !! k) ↔
  is_Some (seed !! k) ∨
  (k ≠ "__proto__" ∧ ∃ file, In file files ∧ FileEntry.name file = k).
Proof.
  destruct (decide (k = "__proto__")) as [-> | Hk].
  - destruct (seed !! "__proto__") as [x|] eqn:E.
    + split; [intros _; left; by eexists|]. intros _.
      apply fold_manifest_keeps. by rewrite E.
    + rewrite (fold_manifest_proto seed files E). split.
      * by intros [? ?].
      * intros [[? ?] | [? _]]; done.
  - rewrite fold_manifest_lookup by by left.
    destruct (last_named k files) as [file|] eqn:E.
    + apply last_named_Some in E. split; [|by eexists].
      intros _. right. split; [done|]. by exists file.
    + split; [by left|].
      intros [Hseed | (_ & file & Hin & Hname)]; [done|].
      by destruct (last_named_None k files E file Hin).
Qed.

(** X5: without a generator, the keys of the manifest are the keys of the seed
    and the names of the files other than ['__proto__'], and no other: no
    such file is left out and no key of the seed is lost. The name
    ['__proto__'] is a key only if the seed owns it. *)
Theorem build_manifest_keys (options : Options.t) (files : list FileEntry.t)
  (k : string) :
  Options.generate options = None →
  (is_Some (build_manifest options files !! k) ↔
   is_Some (default ∅ (Options.seed options) !! k) ∨
   (k ≠ "__proto__" ∧ ∃ file, In file files ∧ FileEntry.name file = k)).
Proof.
  intros Hgen. unfold build_manifest. rewrite Hgen. apply fold_manifest_keys.
Qed.

Lemma build_manifest_keys_witness :
  is_Some (build_manifest (@defaults plain_runtime) two_app_js !! "app.js") ∧
  build_manifest (@defaults plain_runtime) two_app_js !! "app.1.js" = None ∧
  build_manifest (@defaults plain_runtime) [proto_file_entry; app_js_entry]
    !! "__proto__" = None.
Proof.
  split; [|split].
  - apply (build_manifest_keys (@defaults plain_runtime) two_app_js "app.js" eq_refl).
    right. split; [discriminate|]. eexists. split; [by left | done].
  - destruct (build_manifest (@defaults plain_runtime) two_app_js !! "app.1.js")
      eqn:E; [|done].
    assert (is_Some (build_manifest (@defaults plain_runtime) two_app_js !! "app.1.js"))
      as Hsome by (by rewrite E).
    apply (build_manifest_keys (@defaults plain_runtime) two_app_js "app.1.js" eq_refl)
      in Hsome as [[x Hx] | (_ & file & Hin & Hk)]; [discriminate|].
    by destruct Hin as [<- | [<- | []]].
  - destruct (build_manifest (@defaults plain_runtime) [proto_file_entry; app_js_entry]
                !! "__proto__") eqn:E; [|done].
    assert (is_Some (build_manifest (@defaults plain_runtime)
                       [proto_file_entry; app_js_entry] !! "__proto__"))
      as Hsome by (by rewrite E).
    apply (build_manifest_keys (@defaults plain_runtime)
             [proto_file_entry; app_js_entry] "__proto__" eq_refl)
      in Hsome as [[x Hx] | (Hne & _)]; [discriminate | done].
Defined.

(** ** The seed object across emits *)

Lemma set_options_same (p : Plugin.t) : set_options p (Plugin.options p) = p.
Proof. by destruct p. Qed.

(** X6: [emit] changes of the instance its seed at most: the paths, the side
    map and every other option stay. With no seed in the options, or with a
    generator, the instance is unchanged as a whole. *)
Theorem emit_keeps_instance (R : Runtime) (p : Plugin.t) (c : Compilation.t)
  (w : World.t) :
  let p' := EmitState.plugin (state_of (emit p c w)) in
  Plugin.outputFolder p' = Plugin.outputFolder p ∧
  Plugin.outputFile p' = Plugin.outputFile p ∧
  Plugin.outputName p' = Plugin.outputName p ∧
  Plugin.moduleAssets p' = Plugin.moduleAssets p ∧
  Options.set_seed (Plugin.options p') (Options.seed (Plugin.options p)) =
    Plugin.options p ∧
  (Options.seed (Plugin.options p) = None ∨
   is_Some (Options.generate (Plugin.options p)) → p' = p).
Proof.
  intros p'. subst p'. rewrite emit_plugin_after.
  destruct (emit_manifest p c w) as [manifest|]; simpl.
  - repeat split.
    + unfold seed_after.
      destruct (Plugin.options p) as [pp bp fn te wf sd fl mp [g|] st sr]; simpl; [done|].
      by destruct sd.
    + intros Hcase. unfold seed_after.
      destruct (Options.generate (Plugin.options p)) as [g|] eqn:Hg.
      * apply set_options_same.
      * destruct Hcase as [-> | [g Hsome]]; [apply set_options_same | discriminate].
  - repeat split. by destruct (Plugin.options p).
Qed.

(** X7: a seed given in the options is the object the default builder writes
    into: after an [emit] that computed a manifest it holds the whole of that
    manifest, and so every key of one manifest is a key of all later
    manifests of the instance, with its value unless a later file takes the
    name. An [emit] that threw in its first filter computed none, and leaves
    the seed as it was. *)
Theorem seed_accumulates (R : Runtime) (p : Plugin.t) (c1 c2 : Compilation.t)
  (w1 w2 : World.t) (seed : gmap string string) :
  Options.generate (Plugin.options p) = None →
  Options.seed (Plugin.options p) = Some seed →
  let p' := EmitState.plugin (state_of (emit p c1 w1)) in
  (∀ m1,
     emit_manifest p c1 w1 = Some m1 →
     Options.seed (Plugin.options p') = Some m1 ∧
     ∀ files2 m2,
       emit_files p' c2 (emit_counts p' w2) = Some files2 →
       emit_manifest p' c2 w2 = Some m2 →
       (∀ k, is_Some (m1 !! k) → is_Some (m2 !! k)) ∧
       (∀ k v,
          m1 !! k = Some v →
          (∀ file, In file files2 → FileEntry.name file ≠ k) →
          m2 !! k = Some v)) ∧
  (emit_manifest p c1 w1 = None → p' = p) ∧
  (listing_named (Plugin.moduleAssets p) c1 = true → is_Some (emit_manifest p c1 w1)).
Proof.
  intros Hgen Hseed p'. split; [|split].
  - intros m1 Hm1.
    assert (Plugin.options p' = Options.set_seed (Plugin.options p) (Some m1)) as Hopt.
    { subst p'. rewrite emit_plugin_after, Hm1. simpl. unfold seed_after.
      by rewrite Hgen, Hseed. }
    assert (∀ files, build_manifest (Plugin.options p') files = fold_manifest m1 files)
      as Hbuild.
    { intros files. unfold build_manifest. rewrite Hopt. simpl. by rewrite Hgen. }
    split; [by rewrite Hopt|].
    intros files2 m2 Hfiles2. unfold emit_manifest. rewrite Hfiles2, Hbuild.
    intros [= <-]. split.
    + intros k Hk. apply fold_manifest_keys. by left.
    + intros k v Hk Hfree. rewrite fold_manifest_lookup by (right; by rewrite Hk).
      destruct (last_named k files2) as [file|] eqn:E; [|done].
      apply last_named_Some in E as [Hin Hname]. by destruct (Hfree file Hin).
  - intros Hnone. subst p'. by rewrite emit_plugin_after, Hnone.
  - apply emit_manifest_named.
Qed.

Lemma seed_accumulates_witness :
  Options.seed
    (Plugin.options
       (EmitState.plugin
          (state_of (@emit plain_runtime seeded_plugin main_compilation
                       (beforeRun seeded_plugin fresh_world)))))
  = Some {[ "legacy.js" := "legacy.js";
            "main.js" := "main.js";
            "main.js.map" := "main.js.map";
            "favicon.ico" := "favicon.ico" ]}.
Proof.
  apply (proj1 (proj1 (seed_accumulates plain_runtime seeded_plugin
                         main_compilation compilation_with_manifest
                         (beforeRun seeded_plugin fresh_world) fresh_world
                         {[ "legacy.js" := "legacy.js" ]} eq_refl eq_refl) _
                  ltac:(vm_compute; reflexivity))).
Defined.

(** ** What an emit throws and what it announces *)

(** X8: [emit] throws in two cases only. One: an asset of the listing takes
    its name from [Object.prototype], so that [path.join] throws in the
    first filter; the counter is then stored and nothing else is done. The
    other: the counter it stored is 0, [writeToFileEmit] is set and the
    write to disk fails; the counter is then stored and the manifest
    already put into the assets of the compilation, the disk is as before,
    and the after-emit notification is not sent. *)
Theorem emit_throws_iff (R : Runtime) (p : Plugin.t) (c : Compilation.t)
  (w : World.t) :
  let s := state_of (emit p c w) in
  (threw (emit p c w) = true ↔
   listing_named (Plugin.moduleAssets p) c = false ∨
   (emit_count p w = Js.Num 0 ∧
    Options.writeToFileEmit (Plugin.options p) = true ∧
    Plugin.outputFile p ∈ Fs.failing (World.disk w))) ∧
  (listing_named (Plugin.moduleAssets p) c = false →
   s = {| EmitState.plugin := p;
          EmitState.compilation := c;
          EmitState.world :=
            {| World.emitCountMap := emit_counts p w;
               World.disk := World.disk w;
               World.trace := World.trace w |} |}) ∧
  (listing_named (Plugin.moduleAssets p) c = true →
   threw (emit p c w) = true →
   ∃ manifest,
     emit_manifest p c w = Some manifest ∧
     counter p (EmitState.world s) = Some (Js.Num 0) ∧
     EmitState.compilation s =
       Compilation.set_asset c (Plugin.outputName p)
         (Options.serialize (Plugin.options p) manifest) ∧
     World.disk (EmitState.world s) = World.disk w ∧
     World.trace (EmitState.world s) =
       World.trace w ++
       [AssetSet (Plugin.outputName p) (Options.serialize (Plugin.options p) manifest)]).
Proof.
  intros s. subst s.
  destruct (emit_manifest_named p c w) as [Hnamed Hnot].
  destruct (listing_named (Plugin.moduleAssets p) c).
  - destruct (Hnamed eq_refl) as [manifest Hm]. clear Hnamed Hnot.
    rewrite emit_counter_after. revert Hm. unfold emit, emit_manifest.
    destruct (emit_files p c (emit_counts p w)) as [files|]; [|done].
    intros [= <-]. unfold emit_rest.
    destruct (Js.is_zero (emit_count p w)) eqn:Hz.
    + apply is_zero_iff in Hz as Hzero.
      destruct (Options.writeToFileEmit (Plugin.options p)).
      * unfold Fs.outputFileSync.
        destruct (decide (Plugin.outputFile p ∈ Fs.failing (World.disk w))); simpl.
        -- rewrite Hzero. split; [|split]; [|done|].
           ++ split; [intros _; right; by split | done].
           ++ intros _ _. by eexists.
        -- split; [|split]; [|done|done].
           split; [done|]. by intros [? | (_ & _ & Hin)].
      * simpl. split; [|split]; [|done|done].
        split; [done|]. by intros [? | (_ & ? & _)].
    + simpl. split; [|split]; [|done|done].
      split; [done|]. intros [? | (Hzero & _)]; [done|].
      rewrite Hzero in Hz. done.
  - rewrite (emit_throws_early p c w (Hnot eq_refl)). simpl.
    split; [|split]; [|done|done].
    split; [intros _; by left | done].
Qed.

Lemma emit_throws_iff_witness :
  threw (@emit plain_runtime writing_plugin main_compilation world_with_full_disk)
    = true ∧
  threw (@emit plain_runtime dist_plugin compilation_with_constructor_asset
           (beforeRun dist_plugin (beforeRun dist_plugin fresh_world)))
    = true ∧
  threw (@emit plain_runtime writing_plugin main_compilation
           (beforeRun writing_plugin world_with_full_disk))
    = false.
Proof.
  split; [|split].
  - apply (proj2 (proj1 (emit_throws_iff plain_runtime writing_plugin main_compilation
                           world_with_full_disk))).
    right. split; [reflexivity|]. split; [reflexivity|]. by vm_compute.
  - apply (proj2 (proj1 (emit_throws_iff plain_runtime dist_plugin
                           compilation_with_constructor_asset
                           (beforeRun dist_plugin (beforeRun dist_plugin fresh_world))))).
    left. reflexivity.
  - destruct (threw (@emit plain_runtime writing_plugin main_compilation
                       (beforeRun writing_plugin world_with_full_disk))) eqn:E; [|done].
    apply (proj1 (proj1 (emit_throws_iff plain_runtime writing_plugin main_compilation
                           (beforeRun writing_plugin world_with_full_disk))))
      in E as [Hl | (Hz & _)].
    + vm_compute in Hl. discriminate.
    + vm_compute in Hz. discriminate.
Defined.

(** X9: every [emit] that returns sends the after-emit notification once, with
    the manifest it computed, after its writes: also when it is not the last
    cycle and writes nothing. *)
Theorem emit_announces (R : Runtime) (p : Plugin.t) (c : Compilation.t)
  (w : World.t) :
  threw (emit p c w) = false →
  ∃ manifest written,
    emit_manifest p c w = Some manifest ∧
    World.trace (EmitState.world (state_of (emit p c w))) =
      World.trace w ++ written ++ [AfterEmit manifest] ∧
    Forall (fun e => is_write e = true) written.
Proof.
  unfold emit, emit_manifest.
  destruct (emit_files p c (emit_counts p w)) as [files|]; [|done].
  unfold emit_rest. intros Hthrew.
  exists (build_manifest (Plugin.options p) files). revert Hthrew.
  destruct (Js.is_zero (emit_count p w)).
  - destruct (Options.writeToFileEmit (Plugin.options p)).
    + destruct (Fs.outputFileSync _ _ _); simpl; [|done]. intros _.
      eexists [AssetSet _ _; FileWritten _ _]. split; [done|]. split.
      * rewrite <- app_assoc. done.
      * by repeat constructor.
    + simpl. intros _. eexists [AssetSet _ _]. split; [done|]. split.
      * rewrite <- app_assoc. done.
      * by repeat constructor.
  - simpl. intros _. exists []. by split.
Qed.

Lemma emit_announces_witness :
  ∃ manifest written,
    @emit_manifest plain_runtime dist_plugin main_compilation fresh_world
      = Some manifest ∧
    World.trace
      (EmitState.world
         (state_of (@emit plain_runtime dist_plugin main_compilation fresh_world))) =
      World.trace fresh_world ++ written ++ [AfterEmit manifest] ∧
    Forall (fun e => is_write e = true) written.
Proof.
  apply (emit_announces plain_runtime dist_plugin main_compilation fresh_world).
  reflexivity.
Defined.

(** ** Sequences of notifications *)

Lemma run_app `{Runtime} (ns1 ns2 : list notification) (p : Plugin.t) (w : World.t) :
  run p (ns1 ++ ns2) w = run (fst (run p ns1 w)) ns2 (snd (run p ns1 w)).
Proof.
  revert p w. induction ns1 as [|[|c] ns1 IH]; intros p w; simpl; [done| |]; apply IH.
Qed.

(** An emit on a counter that does not become 0: the state it leaves. *)
Lemma emit_pending `{Runtime} (p : Plugin.t) (c : Compilation.t) (w : World.t) (m : Z) :
  counter p w = Some (Js.Num m) → m ≠ 1 →
  let s := state_of (emit p c w) in
  Plugin.outputFile (EmitState.plugin s) = Plugin.outputFile p ∧
  counter p (EmitState.world s) = Some (Js.Num (m - 1)) ∧
  writes (World.trace (EmitState.world s)) = writes (World.trace w) ∧
  World.disk (EmitState.world s) = World.disk w.
Proof.
  intros Hm Hne s. subst s.
  assert (Js.is_zero (emit_count p w) = false) as Hz.
  { rewrite (emit_count_of_counter _ _ _ Hm). simpl. apply Z.eqb_neq. lia. }
  destruct (emit_no_write p c w Hz) as (Hfile & _ & Hd & Hw).
  split; [done|].
  split; [by rewrite emit_counter_after, (emit_count_of_counter _ _ _ Hm)|].
  by split.
Qed.

Lemma cycles_pending `{Runtime} (cs : list Compilation.t) (p : Plugin.t)
  (w : World.t) (n : Z) :
  counter p w = Some (Js.Num n) → n ≠ 0 →
  Plugin.outputFile (fst (run p (cycles cs) w)) = Plugin.outputFile p ∧
  counter p (snd (run p (cycles cs) w)) = Some (Js.Num n) ∧
  writes (World.trace (snd (run p (cycles cs) w))) = writes (World.trace w) ∧
  World.disk (snd (run p (cycles cs) w)) = World.disk w.
Proof.
  revert p w. induction cs as [|c cs IH]; intros p w Hn Hne; [done|].
  assert (counter p (beforeRun p w) = Some (Js.Num (n + 1))) as Hstart
    by by rewrite beforeRun_counter, Hn.
  destruct (emit_pending p c (beforeRun p w) (n + 1) Hstart ltac:(lia))
    as (Hfile & Hcnt & Hwr & Hdisk).
  replace (n + 1 - 1) with n in Hcnt by lia.
  change (run p (cycles (c :: cs)) w) with
    (run (EmitState.plugin (state_of (emit p c (beforeRun p w)))) (cycles cs)
       (EmitState.world (state_of (emit p c (beforeRun p w))))).
  rewrite <- (counter_same_file p _ _ Hfile) in Hcnt.
  destruct (IH _ _ Hcnt Hne) as (Hfile' & Hcnt' & Hwr' & Hdisk').
  rewrite Hfile', Hwr', Hdisk', Hwr, Hdisk, Hfile.
  rewrite (counter_same_file p _ _ Hfile) in Hcnt'. done.
Qed.

(** X10: a whole cycle (a start, then its emit) leaves an integer counter as it
    found it, and writes only if it found 0. Hence, once an emit too many
    has made the counter negative, no later sequence of whole cycles writes
    the manifest again, and whole cycles run while another cycle is still
    open (a positive counter) write nothing either. A cycle that finds no
    counter, [NaN] or 0 leaves 0; it puts the manifest into the assets of
    the compilation when no asset of the listing takes its name from
    [Object.prototype], and throws, the compilation as it was, otherwise. *)
Theorem whole_cycles (R : Runtime) :
  (∀ p cs w n,
     counter p w = Some (Js.Num n) → n ≠ 0 →
     counter p (snd (run p (cycles cs) w)) = Some (Js.Num n) ∧
     writes (World.trace (snd (run p (cycles cs) w))) = writes (World.trace w) ∧
     World.disk (snd (run p (cycles cs) w)) = World.disk w) ∧
  (∀ p c w,
     counter p w = None ∨ counter p w = Some Js.NaN ∨ counter p w = Some (Js.Num 0) →
     let s := state_of (emit p c (beforeRun p w)) in
     counter p (EmitState.world s) = Some (Js.Num 0) ∧
     (listing_named (Plugin.moduleAssets p) c = true →
      ∃ manifest,
        emit_manifest p c (beforeRun p w) = Some manifest ∧
        EmitState.compilation s =
          Compilation.set_asset c (Plugin.outputName p)
            (Options.serialize (Plugin.options p) manifest) ∧
        (Plugin.outputName p ≠ "__proto__" →
         Compilation.assets (EmitState.compilation s) !! Plugin.outputName p =
           Some (Options.serialize (Plugin.options p) manifest))) ∧
     (listing_named (Plugin.moduleAssets p) c = false →
      threw (emit p c (beforeRun p w)) = true ∧
      EmitState.compilation s = c ∧
      writes (World.trace (EmitState.world s)) = writes (World.trace w))).
Proof.
  split.
  - intros p cs w n Hn Hne.
    by destruct (cycles_pending cs p w n Hn Hne) as (_ & ? & ? & ?).
  - intros p c w Hidle s. subst s.
    assert (counter p (beforeRun p w) = Some (Js.Num 1)) as Hstart.
    { rewrite beforeRun_counter. by destruct Hidle as [-> | [-> | ->]]. }
    assert (Js.is_zero (emit_count p (beforeRun p w)) = true) as Hz
      by by rewrite (emit_count_of_counter _ _ 1 Hstart).
    destruct (emit_manifest_named p c (beforeRun p w)) as [Hnamed Hnot].
    split; [|split].
    + by rewrite emit_counter_after, (emit_count_of_counter _ _ 1 Hstart).
    + intros Hl. destruct (Hnamed Hl) as [manifest Hm]. exists manifest.
      destruct (emit_writes p c (beforeRun p w) manifest Hz Hm) as (Hc & _).
      split; [done|]. split; [done|].
      intros Hname. rewrite Hc. by apply set_asset_lookup.
    + intros Hl. by rewrite (emit_throws_early p c (beforeRun p w) (Hnot Hl)).
Qed.

Lemma whole_cycles_witness :
  counter dist_plugin
    (snd (@run plain_runtime dist_plugin
            (cycles [main_compilation; compilation_with_constructor_asset])
            (EmitState.world
               (state_of (@emit plain_runtime dist_plugin main_compilation
                            world_after_one_cycle)))))
    = Some (Js.Num (-1)) ∧
  writes
    (World.trace
       (snd (@run plain_runtime dist_plugin
               (cycles [main_compilation; compilation_with_constructor_asset])
               (EmitState.world
                  (state_of (@emit plain_runtime dist_plugin main_compilation
                               world_after_one_cycle))))))
    = writes (World.trace world_after_one_cycle).
Proof.
  pose proof (proj1 (whole_cycles plain_runtime) dist_plugin
                [main_compilation; compilation_with_constructor_asset]
                (EmitState.world
                   (state_of (@emit plain_runtime dist_plugin main_compilation
                                world_after_one_cycle)))
                (-1) ltac:(vm_compute; reflexivity) ltac:(lia)) as (Hc & Hw & _).
  split; [exact Hc|]. etransitivity; [exact Hw | by vm_compute].
Defined.

Lemma run_paths `{Runtime} (ns : list notification) (p : Plugin.t) (w : World.t) :
  Plugin.outputFile (fst (run p ns w)) = Plugin.outputFile p ∧
  Plugin.outputName (fst (run p ns w)) = Plugin.outputName p ∧
  Plugin.outputFolder (fst (run p ns w)) = Plugin.outputFolder p ∧
  Plugin.moduleAssets (fst (run p ns w)) = Plugin.moduleAssets p.
Proof.
  revert p w. induction ns as [|[|c] ns IH]; intros p w; simpl; [done|apply IH|].
  destruct (IH (EmitState.plugin (state_of (emit p c w)))
              (EmitState.world (state_of (emit p c w)))) as (-> & -> & -> & ->).
  by destruct (emit_plugin_keeps p c w) as (-> & -> & -> & -> & _).
Qed.

Lemma starts_counter `{Runtime} (k : nat) (p : Plugin.t) (w : World.t) (m : Z) :
  counter p w = Some (Js.Num m) →
  fst (run p (repeat Start k) w) = p ∧
  counter p (snd (run p (repeat Start k) w)) = Some (Js.Num (m + Z.of_nat k)) ∧
  World.trace (snd (run p (repeat Start k) w)) = World.trace w ∧
  World.disk (snd (run p (repeat Start k) w)) = World.disk w.
Proof.
  revert w m. induction k as [|k IH]; intros w m Hm.
  - simpl. by rewrite Z.add_0_r.
  - assert (counter p (beforeRun p w) = Some (Js.Num (m + 1))) as Hstart
      by by rewrite beforeRun_counter, Hm.
    destruct (IH (beforeRun p w) (m + 1) Hstart) as (Hp & Hc & Ht & Hd).
    change (run p (repeat Start (S k)) w) with (run p (repeat Start k) (beforeRun p w)).
    rewrite Hp, Hc, Ht, Hd. repeat split. f_equal. f_equal. lia.
Qed.

Lemma emits_pending `{Runtime} (cs : list Compilation.t) (p : Plugin.t)
  (w : World.t) (m : Z) :
  counter p w = Some (Js.Num m) → Z.of_nat (length cs) < m →
  counter p (snd (run p (List.map Emit cs) w)) = Some (Js.Num (m - Z.of_nat (length cs))) ∧
  writes (World.trace (snd (run p (List.map Emit cs) w))) = writes (World.trace w) ∧
  World.disk (snd (run p (List.map Emit cs) w)) = World.disk w.
Proof.
  revert p w m. induction cs as [|c cs IH]; intros p w m Hm Hlt.
  - simpl. by rewrite Z.sub_0_r.
  - simpl length in *.
    destruct (emit_pending p c w m Hm ltac:(lia)) as (Hfile & Hcnt & Hwr & Hdisk).
    change (run p (List.map Emit (c :: cs)) w) with
      (run (EmitState.plugin (state_of (emit p c w))) (List.map Emit cs)
         (EmitState.world (state_of (emit p c w)))).
    rewrite <- (counter_same_file p _ _ Hfile) in Hcnt.
    destruct (IH _ _ (m - 1) Hcnt ltac:(lia)) as (Hcnt' & Hwr' & Hdisk').
    rewrite (counter_same_file p _ _ Hfile) in Hcnt'.
    rewrite Hcnt', Hwr', Hdisk', Hwr, Hdisk. repeat split. f_equal. f_equal. lia.
Qed.

(** X11: cycles opened one inside the other, to any depth: after as many starts
    as there are emits to come, from a process with no cycle in flight, every
    emit but the last leaves the assets of its compilation and the disk
    alone, and the last emit stores 0; it puts the manifest into the assets
    of its compilation when no asset of that compilation's listing takes
    its name from [Object.prototype]. *)
Theorem last_of_nested_cycles (R : Runtime) (p : Plugin.t) (w : World.t)
  (cs : list Compilation.t) (c : Compilation.t) :
  counter p w = None ∨ counter p w = Some Js.NaN ∨ counter p w = Some (Js.Num 0) →
  let r := run p (repeat Start (S (length cs)) ++ List.map Emit cs) w in
  let s := state_of (emit (fst r) c (snd r)) in
  writes (World.trace (snd r)) = writes (World.trace w) ∧
  World.disk (snd r) = World.disk w ∧
  counter p (snd r) = Some (Js.Num 1) ∧
  counter p (EmitState.world s) = Some (Js.Num 0) ∧
  (listing_named (Plugin.moduleAssets p) c = true →
   ∃ manifest,
     emit_manifest (fst r) c (snd r) = Some manifest ∧
     EmitState.compilation s =
       Compilation.set_asset c (Plugin.outputName p)
         (Options.serialize (Plugin.options (fst r)) manifest) ∧
     (Plugin.outputName p ≠ "__proto__" →
      Compilation.assets (EmitState.compilation s) !! Plugin.outputName p =
        Some (Options.serialize (Plugin.options (fst r)) manifest))).
Proof.
  intros Hidle r s.
  assert (counter p (beforeRun p w) = Some (Js.Num 1)) as Hfirst.
  { rewrite beforeRun_counter. by destruct Hidle as [-> | [-> | ->]]. }
  destruct (starts_counter (length cs) p (beforeRun p w) 1 Hfirst)
    as (Hp & Hc & Ht & Hd).
  assert (run p (repeat Start (S (length cs))) w =
          run p (repeat Start (length cs)) (beforeRun p w)) as Hrun by done.
  destruct (emits_pending cs p (snd (run p (repeat Start (length cs)) (beforeRun p w)))
              (1 + Z.of_nat (length cs)) Hc ltac:(lia)) as (Hc' & Hw' & Hd').
  assert (r = run p (List.map Emit cs)
                (snd (run p (repeat Start (length cs)) (beforeRun p w)))) as Hr.
  { subst r. by rewrite run_app, Hrun, Hp. }
  replace (1 + Z.of_nat (length cs) - Z.of_nat (length cs)) with 1 in Hc' by lia.
  rewrite <- Hr in Hc', Hw', Hd'.
  destruct (run_paths (repeat Start (S (length cs)) ++ List.map Emit cs) p w)
    as (Hfile & Hname & _ & Hmods). fold r in Hfile, Hname, Hmods.
  assert (counter (fst r) (snd r) = Some (Js.Num 1)) as Hc1
    by by rewrite (counter_same_file p _ _ Hfile).
  assert (Js.is_zero (emit_count (fst r) (snd r)) = true) as Hz
    by by rewrite (emit_count_of_counter _ _ 1 Hc1).
  split; [by rewrite Hw', Ht|]. split; [by rewrite Hd', Hd|]. split; [done|].
  subst s. split.
  - rewrite <- (counter_same_file p (fst r) _ Hfile).
    by rewrite emit_counter_after, (emit_count_of_counter _ _ 1 Hc1).
  - intros Hl. rewrite <- Hmods in Hl.
    destruct (proj1 (emit_manifest_named (fst r) c (snd r)) Hl) as [manifest Hm].
    exists manifest.
    destruct (emit_writes (fst r) c (snd r) manifest Hz Hm) as (Hcomp & _).
    rewrite Hname in Hcomp.
    split; [done|]. split; [done|].
    intros Hout. rewrite Hcomp. by apply set_asset_lookup.
Qed.

Lemma last_of_nested_cycles_witness :
  writes
    (World.trace
       (snd (@run plain_runtime dist_plugin
               (repeat Start 3 ++ List.map Emit [main_compilation; main_compilation])
               fresh_world)))
    = [] ∧
  counter dist_plugin
    (EmitState.world
       (state_of
          (@emit plain_runtime
             (fst (@run plain_runtime dist_plugin
                     (repeat Start 3 ++
                      List.map Emit [main_compilation; main_compilation])
                     fresh_world))
             main_compilation
             (snd (@run plain_runtime dist_plugin
                     (repeat Start 3 ++
                      List.map Emit [main_compilation; main_compilation])
                     fresh_world)))))
    = Some (Js.Num 0).
Proof.
  pose proof (last_of_nested_cycles plain_runtime dist_plugin fresh_world
                [main_compilation; main_compilation] main_compilation
                (or_introl eq_refl)) as (Hw & _ & _ & Hc & _).
  split; [exact Hw | exact Hc].
Defined.

(** ** The registry of counters *)

Lemma beforeRun_keeps (p : Plugin.t) (w : World.t) (file : string) :
  is_Some (World.emitCountMap w !! file) →
  is_Some (World.emitCountMap (beforeRun p w) !! file).
Proof.
  intros Hsome. unfold beforeRun. simpl.
  destruct (decide (Plugin.outputFile p = file)) as [->|Hne].
  - rewrite lookup_insert_eq. by eexists.
  - by rewrite lookup_insert_ne.
Qed.

Lemma emit_counts_keeps (p : Plugin.t) (w : World.t) (file : string) :
  is_Some (World.emitCountMap w !! file) → is_Some (emit_counts p w !! file).
Proof.
  intros Hsome. unfold emit_counts.
  destruct (decide (Plugin.outputFile p = file)) as [->|Hne].
  - rewrite lookup_insert_eq. by eexists.
  - by rewrite lookup_insert_ne.
Qed.

Lemma run_keeps `{Runtime} (ns : list notification) (p : Plugin.t) (w : World.t)
  (file : string) :
  is_Some (World.emitCountMap w !! file) →
  is_Some (World.emitCountMap (snd (run p ns w)) !! file).
Proof.
  revert p w. induction ns as [|[|c] ns IH]; intros p w Hsome; simpl; [done| |].
  - apply IH. by apply beforeRun_keeps.
  - apply IH. rewrite emit_counts_after. by apply emit_counts_keeps.
Qed.

(** X12: no notification removes a counter: a path that has one keeps one, and
    an instance has one from its first notification on. So the manifest of
    an instance that has once begun a cycle is, from then on, filtered out
    of the file list of every emit of every instance: an entry whose name
    joined onto the output folder gives that path never passes the first
    filter, whatever the list filtered, and so is in no file list that an
    emit derives. *)
Theorem tracked_for_good (R : Runtime) :
  (∀ p ns w file,
     is_Some (World.emitCountMap w !! file) →
     is_Some (World.emitCountMap (snd (run p ns w)) !! file)) ∧
  (∀ p n ns w,
     is_Some (World.emitCountMap (snd (run p (n :: ns) w)) !! Plugin.outputFile p)) ∧
  (∀ p q ns w file,
     is_Some (World.emitCountMap w !! Plugin.outputFile p) →
     path_join (Plugin.outputFolder q) (FileEntry.name file) = Plugin.outputFile p →
     let q' := fst (run q ns w) in
     let w' := snd (run q ns w) in
     (∀ files, ¬ In file (noise_filter (Plugin.outputFolder q') (emit_counts q' w') files)) ∧
     (∀ c files,
        first_filter (Plugin.outputFolder q') (emit_counts q' w')
          (classify (Plugin.options q') (Plugin.moduleAssets q') c) = Some files →
        ¬ In file files)).
Proof.
  split; [|split].
  - intros. by apply run_keeps.
  - intros p [|c] ns w; simpl; apply run_keeps.
    + unfold beforeRun. simpl. rewrite lookup_insert_eq. by eexists.
    + rewrite emit_counts_after, emit_counts_own. by eexists.
  - intros p q ns w file Hp Hjoin q' w'.
    assert (∀ files,
              ¬ In file (noise_filter (Plugin.outputFolder q') (emit_counts q' w') files))
      as Hnever.
    { intros files. rewrite noise_filter_In. intros [_ Hnot]. apply Hnot. right.
      destruct (run_paths ns q w) as (_ & _ & Hfolder & _).
      subst q' w'. rewrite Hfolder, Hjoin.
      apply emit_counts_keeps. by apply run_keeps. }
    split; [done|].
    intros c files. unfold first_filter.
    destruct (named_entries _) as [named|]; [|done].
    intros [= <-]. apply Hnever.
Qed.

(** ** The entries that reach the manifest *)

Lemma named_inv (file : FileEntry.entry Js.value) (f : FileEntry.t) :
  FileEntry.named file = Some f → file = FileEntry.raw f.
Proof.
  unfold FileEntry.named. destruct file as [pa ch [n|k] ii ic ia im]; simpl; [|done].
  by intros [= <-].
Qed.

Lemma named_entries_inv (files : list (FileEntry.entry Js.value))
  (named : list FileEntry.t) :
  named_entries files = Some named → files = List.map FileEntry.raw named.
Proof.
  revert named. induction files as [|file files IH]; intros named; simpl.
  - by intros [= <-].
  - destruct (FileEntry.named file) as [f|] eqn:Hf; [|done].
    destruct (named_entries files) as [fs|]; [|done].
    intros [= <-]. simpl. by rewrite (named_inv _ _ Hf), (IH fs eq_refl).
Qed.

Lemma raw_In (file : FileEntry.t) (files : list FileEntry.t) :
  In (FileEntry.raw file) (List.map FileEntry.raw files) ↔ In file files.
Proof.
  rewrite in_map_iff. split.
  - intros (x & Hx & Hin).
    assert (Some x = Some file) as [= <-] by by rewrite <- !named_raw, Hx.
    done.
  - intros Hin. by exists file.
Qed.

(** X13: with no [map] option, a file list that reaches the manifest holds,
    for each classified entry that is not noise, the entry with the base
    path put before its name, the public path before its path, and the
    backslashes of both replaced, its other fields as classified; of these,
    the ones the [filter] option (if any) accepts, and nothing else. The
    [sort] option changes the order only. *)
Theorem emit_files_entries (R : Runtime) (p : Plugin.t) (c : Compilation.t)
  (counts : gmap string Js.num) (final : list FileEntry.t) (file' : FileEntry.t) :
  Options.map (Plugin.options p) = None →
  emit_files p c counts = Some final →
  let basePath := Options.basePath (Plugin.options p) in
  let publicPath := default "" (effective_publicPath (Plugin.options p) c) in
  (In file' final ↔
   ∃ file,
     In (FileEntry.raw file) (classify (Plugin.options p) (Plugin.moduleAssets p) c) ∧
     ¬ is_noise (Plugin.outputFolder p) counts file ∧
     file' =
       {| FileEntry.path := Js.replace_backslashes (publicPath +:+ FileEntry.path file);
          FileEntry.chunk := FileEntry.chunk file;
          FileEntry.name := Js.replace_backslashes (basePath +:+ FileEntry.name file);
          FileEntry.isInitial := FileEntry.isInitial file;
          FileEntry.isChunk := FileEntry.isChunk file;
          FileEntry.isAsset := FileEntry.isAsset file;
          FileEntry.isModuleAsset := FileEntry.isModuleAsset file |} ∧
     (∀ keep, Options.filter (Plugin.options p) = Some keep → keep file' = true)).
Proof.
  intros Hmap Hfinal basePath publicPath. revert Hfinal.
  unfold emit_files, first_filter.
  destruct (named_entries (classify (Plugin.options p) (Plugin.moduleAssets p) c))
    as [classified|] eqn:Hnamed; [|done].
  apply named_entries_inv in Hnamed. rewrite Hnamed.
  intros [= <-]. unfold later_stages, user_stages. rewrite Hmap.
  rewrite prefix_basePath_map, prefix_publicPath_map.
  unfold normalize_separators. rewrite !List.map_map. fold basePath publicPath.
  set (staged := List.map _ _).
  assert (In file' staged ↔
          ∃ file,
            In (FileEntry.raw file) (List.map FileEntry.raw classified) ∧
            ¬ is_noise (Plugin.outputFolder p) counts file ∧
            file' =
              {| FileEntry.path := Js.replace_backslashes (publicPath +:+ FileEntry.path file);
                 FileEntry.chunk := FileEntry.chunk file;
                 FileEntry.name := Js.replace_backslashes (basePath +:+ FileEntry.name file);
                 FileEntry.isInitial := FileEntry.isInitial file;
                 FileEntry.isChunk := FileEntry.isChunk file;
                 FileEntry.isAsset := FileEntry.isAsset file;
                 FileEntry.isModuleAsset := FileEntry.isModuleAsset file |}) as Hstaged.
  { subst staged. rewrite in_map_iff. split.
    - intros (file & <- & Hin). apply noise_filter_In in Hin as [Hin Hnot].
      exists file. by rewrite raw_In.
    - intros (file & Hin & Hnot & ->). exists file. split; [done|].
      apply noise_filter_In. by rewrite raw_In in Hin. }
  assert (In file'
            (match Options.filter (Plugin.options p) with
             | Some f => List.filter f staged
             | None => staged
             end) ↔
          In file' staged ∧
          ∀ keep, Options.filter (Plugin.options p) = Some keep → keep file' = true)
    as Hfilter.
  { destruct (Options.filter (Plugin.options p)) as [keep|].
    - rewrite filter_In. split.
      + intros [Hin Hkeep]. split; [done|]. by intros ? [= <-].
      + intros [Hin Hkeep]. split; [done|]. by apply Hkeep.
    - split; [intros Hin; by split | by intros [Hin _]]. }
  assert (∀ cmp l, In file' (Array_sort FileEntry.t cmp l) ↔ In file' l) as Hsort.
  { intros cmp l. split; apply Permutation_in;
      [apply Array_sort_permutation | symmetry; apply Array_sort_permutation]. }
  destruct (Options.sort (Plugin.options p)) as [cmp|];
    rewrite ?Hsort, Hfilter, Hstaged; split.
  all: try (intros [(file & Hin & Hnot & Heq) Hkeep]; by exists file).
  all: intros (file & Hin & Hnot & Heq & Hkeep); split; [by exists file | done].
Qed.

Lemma emit_files_entries_witness :
  @emit_files plain_runtime dist_plugin main_compilation
    (emit_counts dist_plugin (beforeRun dist_plugin fresh_world))
  = Some [ chunk_file_entry (@defaults plain_runtime) main_chunk "main.js";
           chunk_file_entry (@defaults plain_runtime) main_chunk "main.js.map";
           favicon_entry ] ∧
  In favicon_entry
    [ chunk_file_entry (@defaults plain_runtime) main_chunk "main.js";
      chunk_file_entry (@defaults plain_runtime) main_chunk "main.js.map";
      favicon_entry ].
Proof.
  assert (@emit_files plain_runtime dist_plugin main_compilation
            (emit_counts dist_plugin (beforeRun dist_plugin fresh_world))
          = Some [ chunk_file_entry (@defaults plain_runtime) main_chunk "main.js";
                   chunk_file_entry (@defaults plain_runtime) main_chunk "main.js.map";
                   favicon_entry ]) as Hfinal by (vm_compute; reflexivity).
  split; [exact Hfinal|].
  apply (proj2 (emit_files_entries plain_runtime dist_plugin main_compilation
                  (emit_counts dist_plugin (beforeRun dist_plugin fresh_world))
                  _ favicon_entry eq_refl Hfinal)).
  exists favicon_entry. split; [|split; [|split]].
  - vm_compute. tauto.
  - intros [Hhot | [x Hx]].
    + apply includes_spec in Hhot. vm_compute in Hhot. discriminate.
    + vm_compute in Hx. discriminate.
  - reflexivity.
  - intros keep Hkeep. vm_compute in Hkeep. discriminate.
Defined.

(** ** What an emit leaves alone *)

(** X14: [emit] sets one asset of the compilation at most, the one named
    [outputName], and one file of the disk at most, [outputFile]: every other
    asset and file, the chunks and the listing of the compilation, and the
    set of paths at which a write fails are as before, whether it returns or
    throws. *)
Theorem emit_frame (R : Runtime) (p : Plugin.t) (c : Compilation.t) (w : World.t) :
  let s := state_of (emit p c w) in
  (∀ k, k ≠ Plugin.outputName p →
        Compilation.assets (EmitState.compilation s) !! k = Compilation.assets c !! k) ∧
  Compilation.chunks (EmitState.compilation s) = Compilation.chunks c ∧
  Compilation.statsAssets (EmitState.compilation s) = Compilation.statsAssets c ∧
  Compilation.publicPath (EmitState.compilation s) = Compilation.publicPath c ∧
  (∀ file, file ≠ Plugin.outputFile p →
           Fs.files (World.disk (EmitState.world s)) !! file =
           Fs.files (World.disk w) !! file) ∧
  Fs.failing (World.disk (EmitState.world s)) = Fs.failing (World.disk w).
Proof.
  intros s. subst s. unfold emit.
  destruct (emit_files p c (emit_counts p w)) as [files|]; [|done].
  unfold emit_rest.
  destruct (Js.is_zero (emit_count p w)); [|done].
  assert (∀ output k, k ≠ Plugin.outputName p →
            Compilation.assets (Compilation.set_asset c (Plugin.outputName p) output) !! k
            = Compilation.assets c !! k) as Hassets.
  { intros output k Hne. simpl. by rewrite set_lookup_ne. }
  destruct (Options.writeToFileEmit (Plugin.options p)).
  - unfold Fs.outputFileSync.
    destruct (decide (Plugin.outputFile p ∈ Fs.failing (World.disk w))); simpl.
    + repeat split; try done. apply Hassets.
    + repeat split; try done; [apply Hassets|].
      intros file Hne. by rewrite lookup_insert_ne.
  - simpl. repeat split; try done. apply Hassets.
Qed.
